(** * go-genconstructor: a shallow embedding of the constructor generator

    The development follows [genconstructor.Run] and its helpers
    ([toLowerCamel], [commonInitialisms], [fmtImports]).

    Text is modelled as [string], i.e. a sequence of bytes, which is what a Go
    string is; text outside ASCII is UTF-8.  White space is the finite set
    of runes of [unicode.IsSpace], so [strings.Fields] and
    [strings.TrimSpace] are given on every byte string.  The letters and
    the case of the runes outside ASCII are tables of the Go library that
    are not embedded: [unicode.IsUpper], [unicode.IsLetter] and
    [strings.ToLower] are given byte by byte and are those of Go on ASCII
    text only ([isASCII]); the statements that depend on them carry that
    hypothesis.

    Everything [Run] obtains from outside the repository (the parser, the
    printer of syntax nodes, the template engine, the source formatter, the
    output sink) is gathered in a record [World]; [Run] is a function of it. *)

From Stdlib Require Import String Ascii List Bool Arith NArith Lia.
From Stdlib Require Import Permutation Sorted.
Import ListNotations.
Open Scope list_scope.
Open Scope string_scope.

(** ** Go's [unicode], [strings] and [path] on ASCII text *)

Definition NL : string := String "010"%char "".
Definition TAB : string := String "009"%char "".
Definition DQ : string := String "034"%char "".
Definition BQ : string := String "096"%char "".

Fixpoint tabs (n : nat) : string :=
  match n with
  | O => ""
  | S k => TAB ++ tabs k
  end.

(** [s[i:]] *)
Fixpoint drop (i : nat) (s : string) : string :=
  match i, s with
  | O, _ => s
  | S _, "" => ""
  | S k, String _ s' => drop k s'
  end.

(** [s[:i]] *)
Fixpoint take (i : nat) (s : string) : string :=
  match i, s with
  | O, _ => ""
  | S _, "" => ""
  | S k, String c s' => String c (take k s')
  end.

Module unicode.

Definition inRange (lo hi : nat) (c : ascii) : bool :=
  Nat.leb lo (nat_of_ascii c) && Nat.leb (nat_of_ascii c) hi.

(** The upper-case letters below U+0080: 'A'..'Z'. *)
Definition IsUpper (c : ascii) : bool := inRange 65 90 c.

Definition IsLower (c : ascii) : bool := inRange 97 122 c.

(** The letters below U+0080. *)
Definition IsLetter (c : ascii) : bool := IsUpper c || IsLower c.

(** The white space below U+0080: tab, line feed, vertical tab, form feed,
    carriage return and space. *)
Definition IsSpace (c : ascii) : bool :=
  inRange 9 13 c || Nat.eqb (nat_of_ascii c) 32.

Definition ToLower (c : ascii) : ascii :=
  if IsUpper c then ascii_of_nat (nat_of_ascii c + 32) else c.

End unicode.

Module strings.

(** [ToLower] on ASCII text. *)
Fixpoint ToLower (s : string) : string :=
  match s with
  | "" => ""
  | String c s' => String (unicode.ToLower c) (ToLower s')
  end.

(** Go's -1 is [None]. *)
Fixpoint IndexFunc (s : string) (f : ascii -> bool) : option nat :=
  match s with
  | "" => None
  | String c s' =>
      if f c then Some 0
      else match IndexFunc s' f with
           | Some i => Some (S i)
           | None => None
           end
  end.

Definition HasPrefix (s p : string) : bool := prefix p s.

Fixpoint TrimLeftFunc (s : string) (f : ascii -> bool) : string :=
  match s with
  | "" => ""
  | String c s' => if f c then TrimLeftFunc s' f else s
  end.

Fixpoint TrimRightFunc (s : string) (f : ascii -> bool) : string :=
  match s with
  | "" => ""
  | String c s' =>
      match TrimRightFunc s' f with
      | "" => if f c then "" else String c ""
      | r => String c r
      end
  end.

Definition TrimFunc (s : string) (f : ascii -> bool) : string :=
  TrimRightFunc (TrimLeftFunc s f) f.

Definition byteIs (c : ascii) (n : nat) : bool := Nat.eqb (nat_of_ascii c) n.

(** The number of bytes of the white-space rune at the head of [s], 0 when
    [s] does not begin with one.  [unicode.IsSpace] holds of the runes
    below U+0080 above, of U+0085 and U+00A0 (C2 85, C2 A0), of U+1680
    (E1 9A 80), of U+2000..U+200A, U+2028, U+2029 and U+202F (E2 80 80..8A,
    E2 80 A8, E2 80 A9, E2 80 AF), of U+205F (E2 81 9F) and of U+3000
    (E3 80 80).  A first byte of these encodings is never the second or
    third byte of a rune, so wherever the bytes stand the decoder finds
    that rune there. *)
Definition spaceWidth (s : string) : nat :=
  match s with
  | "" => 0
  | String c0 s1 =>
      if unicode.IsSpace c0 then 1
      else
        match s1 with
        | "" => 0
        | String c1 s2 =>
            if byteIs c0 194 && (byteIs c1 133 || byteIs c1 160) then 2
            else
              match s2 with
              | "" => 0
              | String c2 _ =>
                  if (byteIs c0 225 && byteIs c1 154 && byteIs c2 128)
                     || (byteIs c0 226 && byteIs c1 128
                         && (unicode.inRange 128 138 c2 || byteIs c2 168
                             || byteIs c2 169 || byteIs c2 175))
                     || (byteIs c0 226 && byteIs c1 129 && byteIs c2 159)
                     || (byteIs c0 227 && byteIs c1 128 && byteIs c2 128)
                  then 3
                  else 0
              end
        end
  end.

(** White space removed at the front; [skip] bytes of a white-space rune
    are still to be passed. *)
Fixpoint trimLeftSpace (s : string) (skip : nat) : string :=
  match s with
  | "" => ""
  | String _ s' =>
      match skip with
      | S k => trimLeftSpace s' k
      | O => match spaceWidth s with
             | O => s
             | S k => trimLeftSpace s' k
             end
      end
  end.

(** White space removed at the end: once the rest is trimmed, what is left
    ends in a white-space rune only when it is that rune and nothing else. *)
Fixpoint trimRightSpace (s : string) : string :=
  match s with
  | "" => ""
  | String c s' =>
      let t := String c (trimRightSpace s') in
      if Nat.eqb (spaceWidth t) (String.length t) then "" else t
  end.

Definition TrimSpace (s : string) : string :=
  trimRightSpace (trimLeftSpace s 0).

Fixpoint inCutset (cutset : string) (c : ascii) : bool :=
  match cutset with
  | "" => false
  | String d r => Ascii.eqb c d || inCutset r c
  end.

Definition Trim (s cutset : string) : string := TrimFunc s (inCutset cutset).

(** The loop of [FieldsFunc] for a predicate on bytes, which is the
    function of Go on ASCII text: [cur] is the field being read. *)
Fixpoint fieldsLoop (f : ascii -> bool) (s cur : string) : list string :=
  match s with
  | "" => match cur with "" => [] | _ => [cur] end
  | String c s' =>
      if f c then
        match cur with
        | "" => fieldsLoop f s' ""
        | _ => cur :: fieldsLoop f s' ""
        end
      else fieldsLoop f s' (cur ++ String c "")
  end.

Definition FieldsFunc (s : string) (f : ascii -> bool) : list string :=
  fieldsLoop f s "".

(** The loop of [Fields]: the text is cut at every white-space rune;
    [skip] bytes of such a rune are still to be passed. *)
Fixpoint fieldsSpaceLoop (s cur : string) (skip : nat) : list string :=
  match s with
  | "" => match cur with "" => [] | _ => [cur] end
  | String c s' =>
      match skip with
      | S k => fieldsSpaceLoop s' cur k
      | O =>
          match spaceWidth s with
          | O => fieldsSpaceLoop s' (cur ++ String c "") 0
          | S k =>
              match cur with
              | "" => fieldsSpaceLoop s' "" k
              | _ => cur :: fieldsSpaceLoop s' "" k
              end
          end
      end
  end.

Definition Fields (s : string) : list string := fieldsSpaceLoop s "" 0.

Definition IndexByte (s : string) (d : ascii) : option nat :=
  IndexFunc s (Ascii.eqb d).

Fixpoint Contains (s sub : string) : bool :=
  prefix sub s ||
  match s with
  | "" => false
  | String _ s' => Contains s' sub
  end.

(** [SplitN(s, sep, 2)] for a separator of one byte. *)
Definition SplitN2 (s : string) (sep : ascii) : list string :=
  match IndexByte s sep with
  | Some i => [take i s; drop (S i) s]
  | None => [s]
  end.

(** The loop of [Split] for a separator of one byte. *)
Fixpoint splitLoop (sep : ascii) (s cur : string) : list string :=
  match s with
  | "" => [cur]
  | String c s' =>
      if Ascii.eqb c sep then cur :: splitLoop sep s' ""
      else splitLoop sep s' (cur ++ String c "")
  end.

Definition Split (s : string) (sep : ascii) : list string :=
  splitLoop sep s "".

Fixpoint LastIndexByte (s : string) (d : ascii) : option nat :=
  match s with
  | "" => None
  | String c s' =>
      match LastIndexByte s' d with
      | Some i => Some (S i)
      | None => if Ascii.eqb c d then Some 0 else None
      end
  end.

Definition HasSuffix (s suffix : string) : bool :=
  Nat.leb (String.length suffix) (String.length s)
  && String.eqb (drop (String.length s - String.length suffix) s) suffix.

End strings.

Definition slash : ascii := "/"%char.
Definition dot : ascii := "."%char.

Module path.

(** The last element of a slash-separated path; trailing slashes are removed
    first, the empty path gives ".", a path of slashes only gives "/". *)
Definition Base (p : string) : string :=
  match p with
  | "" => "."
  | _ =>
      let p1 := strings.TrimRightFunc p (Ascii.eqb slash) in
      let p2 := match strings.LastIndexByte p1 slash with
                | Some i => drop (S i) p1
                | None => p1
                end in
      match p2 with
      | "" => "/"
      | _ => p2
      end
  end.

End path.

(** ** Parameter names: [toLowerCamel] and [commonInitialisms] *)

(** The map literal of the source, in its order. *)
Definition commonInitialismsTable : list (string * bool) :=
  [ ("acl", true); ("api", true); ("ascii", true); ("cpu", true);
    ("css", true); ("dns", true); ("eof", true); ("guid", true);
    ("html", true); ("http", true); ("https", true); ("id", true);
    ("ip", true); ("json", true); ("lhs", true); ("qps", true);
    ("ram", true); ("rhs", true); ("rpc", true); ("sla", true);
    ("smtp", true); ("sql", true); ("ssh", true); ("tcp", true);
    ("tls", true); ("ttl", true); ("udp", true); ("ui", true);
    ("uid", true); ("uuid", true); ("uri", true); ("url", true);
    ("utf8", true); ("vm", true); ("xml", true); ("xmpp", true);
    ("xsrf", true); ("xss", true) ].

(** Indexing a [map[string]bool]: the zero value [false] for a missing key. *)
Fixpoint mapIndex (m : list (string * bool)) (k : string) : bool :=
  match m with
  | [] => false
  | (k', v) :: m' => if String.eqb k k' then v else mapIndex m' k
  end.

Definition commonInitialisms (k : string) : bool :=
  mapIndex commonInitialismsTable k.

Definition toLowerCamel (s : string) : string :=
  if String.eqb s "" then s
  else
    let firstNotUpperIndex :=
      match strings.IndexFunc s (fun c => negb (unicode.IsUpper c)) with
      | Some i => i
      | None => String.length s
      end in
    if commonInitialisms (take firstNotUpperIndex s) then
      strings.ToLower (take firstNotUpperIndex s) ++ drop firstNotUpperIndex s
    else strings.ToLower (take 1 s) ++ drop 1 s.

(** ** Syntax trees ([go/ast]), as far as [Run] inspects them *)

Module ast.

(** Expressions in type position.  [Run] prints a field's type and asks
    whether it is an [*ast.Ident]; any node of another kind is [OtherExpr],
    identified by its source text. *)
Inductive Expr : Type :=
| Ident (Name : string)
| SelectorExpr (X : Expr) (Sel : string)
| StarExpr (X : Expr)
| ArrayType (Elt : Expr)
| MapType (Key Value : Expr)
| OtherExpr (src : string).

(** [Field_Names = []] is Go's [field.Names == nil] (an embedded field);
    [Field_Tag] is the [Value] of the tag literal, delimiters included. *)
Record Field : Type := mkField {
  Field_Names : list string;
  Field_Type : Expr;
  Field_Tag : option string
}.

(** The [Type] of a type specification. *)
Inductive TypeExpr : Type :=
| StructType (Fields : list Field)
| NotStruct (e : Expr).

(** [Import_Path] is [Path.Value]: the path with its quotes. *)
Record ImportSpec : Type := mkImportSpec {
  Import_Name : option string;
  Import_Path : string
}.

Inductive Spec : Type :=
| ImportSpec_ (i : ImportSpec)
| ValueSpec
| TypeSpec (Name : string) (Type_ : TypeExpr).

Record Comment : Type := mkComment { Text : string }.

Inductive Tok : Type := IMPORT | CONST | TYPE | VAR.

Inductive Decl : Type :=
| GenDecl (tok : Tok) (Doc : option (list Comment)) (Specs : list Spec)
| FuncDecl
| BadDecl.

Record File : Type := mkFile {
  File_Decls : list Decl;
  File_Imports : list ImportSpec
}.

(** [Pkg_Files] is the map from file name to file. *)
Record Package : Type := mkPackage {
  Pkg_Name : string;
  Pkg_Files : list (string * File)
}.

End ast.

Import ast.

(** ** Results of running code: value, returned error, or panic *)

Definition error : Type := string.

Inductive panicValue : Type :=
| PanicError (e : error)
| PanicTypeAssertion (want : string).

Inductive Outcome (A : Type) : Type :=
| Ok (a : A)
| Err (e : error)
| Panic (p : panicValue).

Arguments Ok {A} a.
Arguments Err {A} e.
Arguments Panic {A} p.

Definition bind {A B : Type} (m : Outcome A) (k : A -> Outcome B) : Outcome B :=
  match m with
  | Ok a => k a
  | Err e => Err e
  | Panic p => Panic p
  end.

Notation "x <- m ;; k" := (bind m (fun x => k))
  (at level 61, m at next level, right associativity).

(** A [for ... range] loop whose body may return or panic. *)
Fixpoint foldM {A S : Type} (f : S -> A -> Outcome S) (l : list A) (s : S)
  : Outcome S :=
  match l with
  | [] => Ok s
  | a :: l' => s' <- f s a ;; foldM f l' s'
  end.

(** ** What [Run] collects and hands to the templates *)

Record FieldInfo : Type := mkFieldInfo {
  Type_ : string;
  Name : string;
  ConstValue : string
}.

Record tmplParam : Type := mkTmplParam {
  StructName : string;
  Fields : list FieldInfo;
  Pointer : bool
}.

(** The data of the "out" template. *)
Record outParam : Type := mkOutParam {
  GeneratorName : string;
  PackageName : string;
  ImportPackages : string;
  Body : string
}.

Record option_ : Type := mkOption {
  fileFilter : option (string -> bool);
  generatorName : string
}.

Definition Option : Type := option_ -> option_.

Definition WithFileFilter (f : string -> bool) : Option :=
  fun o => {| fileFilter := Some f; generatorName := generatorName o |}.

Definition WithGeneratorName (n : string) : Option :=
  fun o => {| fileFilter := fileFilter o; generatorName := n |}.

(** ** The world outside the repository

    [ParseDir] is [parser.ParseDir], the packages in the order in which the
    [range] over the map visits them.  [Fprint_expr] and [Fprint_import] are
    [printer.Fprint] at the two node kinds it is called on.  [Unquote] is
    [strconv.Unquote], used by [reflect.StructTag.Lookup].
    [Template_Parse name] is the error, if any, of parsing the template
    called [name]; [Execute_constructor] and [Execute_out] are the errors, if
    any, of executing them on the given data: when there is none, the text
    produced is the one the template text below describes.
    [Source] is [format.Source]; [Write] is the [Write] of the writer that
    the caller's [newWriter] returns for a package. *)
Record World : Type := mkWorld {
  ParseDir : string -> option (string -> bool) -> list Package + error;
  Fprint_expr : Expr -> string + error;
  Fprint_import : ImportSpec -> string + error;
  Unquote : string -> option string;
  Template_Parse : string -> option error;
  Execute_constructor : tmplParam -> option error;
  Execute_out : outParam -> option error;
  Source : string -> string + error;
  Write : Package -> string -> option error
}.

(** What the caller of [Run] observes on its sink. *)
Inductive Event : Type :=
| NewWriter (pkg : string)
| Written (pkg : string) (content : string).

(** ** [reflect.StructTag.Lookup] *)

Module StructTag.

Definition isNameByte (c : ascii) : bool :=
  Nat.ltb 32 (nat_of_ascii c)
  && negb (Ascii.eqb c ":"%char)
  && negb (Ascii.eqb c "034"%char)
  && negb (Nat.eqb (nat_of_ascii c) 127).

Definition scanName (tag : string) : nat :=
  match strings.IndexFunc tag (fun c => negb (isNameByte c)) with
  | Some i => i
  | None => String.length tag
  end.

(** The scan for the closing quote: [s] is [tag[i:]]; the result is the
    final value of [i]. *)
Fixpoint scanQuoted (s : string) (i : nat) : nat :=
  match s with
  | "" => i
  | String c s' =>
      if Ascii.eqb c "034"%char then i
      else if Ascii.eqb c "\"%char then
        match s' with
        | "" => i + 2
        | String _ s'' => scanQuoted s'' (i + 2)
        end
      else scanQuoted s' (i + 1)
  end.

Definition byteAt (s : string) (i : nat) : option ascii := String.get i s.

Definition isByte (o : option ascii) (c : ascii) : bool :=
  match o with
  | Some d => Ascii.eqb d c
  | None => false
  end.

(** One round of the loop over [tag] per unit of [fuel]; every round
    shortens [tag], so [String.length tag] rounds are enough
    ([lookupLoop_fuel] below). *)
Fixpoint lookupLoop (unquote : string -> option string) (fuel : nat)
  (tag key : string) : option string :=
  match fuel with
  | O => None
  | S fuel' =>
      let tag := strings.TrimLeftFunc tag (Ascii.eqb " "%char) in
      if String.eqb tag "" then None
      else
        let i := scanName tag in
        if Nat.eqb i 0
           || Nat.leb (String.length tag) (i + 1)
           || negb (isByte (byteAt tag i) ":"%char)
           || negb (isByte (byteAt tag (i + 1)) "034"%char)
        then None
        else
          let name := take i tag in
          let tag := drop (i + 1) tag in
          let i := scanQuoted (drop 1 tag) 1 in
          if Nat.leb (String.length tag) i then None
          else
            let qvalue := take (i + 1) tag in
            let tag := drop (i + 1) tag in
            if String.eqb key name then unquote qvalue
            else lookupLoop unquote fuel' tag key
  end.

Definition Lookup (unquote : string -> option string) (tag key : string)
  : option string :=
  lookupLoop unquote (String.length tag) tag key.

End StructTag.

(** ** The two templates

    A [{{-] action removes the white space before it, so a line break and
    its indentation survive only in front of an action written [{{]. *)

Definition commentMarker : string := "//genconstructor".
Definition pointerOpts : string := "-p".

(** A line break followed by [n] tabs. *)
Definition indent (n : nat) : string := NL ++ tabs n.

(** The body of the first [range]: the parameter of one field. *)
Definition renderParam (f : FieldInfo) : string :=
  if String.eqb (ConstValue f) "" then
    indent 9 ++ toLowerCamel (Name f) ++ " " ++ Type_ f ++ ","
  else "".

(** The body of the second [range]: the initializer of one field. *)
Definition renderInit (f : FieldInfo) : string :=
  if negb (String.eqb (ConstValue f) "") then
    indent 10 ++ Name f ++ ": " ++ ConstValue f ++ ","
  else
    indent 10 ++ Name f ++ ": " ++ toLowerCamel (Name f) ++ ",".

(** [{{ range }}]: the body once per element, in order. *)
Fixpoint renderRange (body : FieldInfo -> string) (l : list FieldInfo)
  : string :=
  match l with
  | [] => ""
  | f :: l' => body f ++ renderRange body l'
  end.

(** The text of the "constructor" template on [p]. *)
Definition renderConstructor (p : tmplParam) : string :=
  indent 6 ++ "func New" ++ StructName p ++ "("
  ++ renderRange renderParam (Fields p)
  ++ indent 6 ++ ") " ++ (if Pointer p then "*" else "") ++ StructName p
  ++ " {"
  ++ indent 7 ++ "return " ++ (if Pointer p then "&" else "")
  ++ StructName p ++ "{"
  ++ renderRange renderInit (Fields p)
  ++ indent 7 ++ "}"
  ++ indent 6 ++ "}"
  ++ indent 5.

(** The text of the "out" template on [d]. *)
Definition renderOut (d : outParam) : string :=
  indent 3 ++ "// Code generated by " ++ GeneratorName d ++ "; DO NOT EDIT."
  ++ NL ++ indent 3 ++ "package " ++ PackageName d
  ++ NL ++ indent 3 ++ ImportPackages d
  ++ NL ++ indent 3 ++ Body d
  ++ indent 2.

(** [template.Must(...Parse(...)).Execute(body, ...)] followed by
    [panic(err)]: the text appended to [body]. *)
Definition executeConstructor (w : World) (p : tmplParam) : Outcome string :=
  match Template_Parse w "constructor" with
  | Some e => Panic (PanicError e)
  | None =>
      match Execute_constructor w p with
      | Some e => Panic (PanicError e)
      | None => Ok (renderConstructor p)
      end
  end.

(** ** [fmtImports] *)

Definition isFirstGroup (pkg : ImportSpec) : bool :=
  Nat.ltb (List.length (strings.Split (Import_Path pkg) slash)) 3
  && negb (strings.Contains (Import_Path pkg) ".").

(** [groups[0]] and [groups[1]], filled in one pass. *)
Fixpoint groupImports (pkgs : list ImportSpec) (g0 g1 : list ImportSpec)
  : list ImportSpec * list ImportSpec :=
  match pkgs with
  | [] => (g0, g1)
  | pkg :: rest =>
      if isFirstGroup pkg then groupImports rest (g0 ++ [pkg])%list g1
      else groupImports rest g0 (g1 ++ [pkg])%list
  end.

Definition lessPath (a b : ImportSpec) : bool :=
  String.ltb (Import_Path a) (Import_Path b).

(** [sort.Slice] with [lessPath], as the insertion sort that Go runs on a
    slice of at most twelve elements: the elements are taken from left to
    right, and each one moves to the left as long as it is less than its
    neighbour, so imports with the same path stay in the order in which
    they were recorded.  On longer slices Go does not fix the order of two
    imports with the same path. *)
Fixpoint insertImport (x : ImportSpec) (l : list ImportSpec)
  : list ImportSpec :=
  match l with
  | [] => [x]
  | y :: l' => if lessPath x y then x :: l else y :: insertImport x l'
  end.

Definition sortImports (l : list ImportSpec) : list ImportSpec :=
  fold_left (fun sorted x => insertImport x sorted) l [].

(** The inner loop: one printed import and a line break each. *)
Fixpoint printGroup (w : World) (group : list ImportSpec) (b : string)
  : Outcome string :=
  match group with
  | [] => Ok b
  | pkg :: rest =>
      match Fprint_import w pkg with
      | inr e => Panic (PanicError e)
      | inl txt => printGroup w rest (b ++ txt ++ NL)
      end
  end.

Definition fmtImports (w : World) (pkgs : list ImportSpec) : Outcome string :=
  match pkgs with
  | [] => Ok ""
  | _ =>
      let '(g0, g1) := groupImports pkgs [] [] in
      b <- printGroup w (sortImports g0) "" ;;
      let b := b ++ NL in
      b <- printGroup w (sortImports g1) b ;;
      let b := b ++ NL in
      Ok ("import (" ++ NL ++ b ++ NL ++ tabs 2 ++ ")")
  end.

(** ** [Run] *)

(** The loop over [strings.Fields(comment.Text)]. *)
Fixpoint hasPointerToken (l : list string) : bool :=
  match l with
  | [] => false
  | s :: rest => if String.eqb s pointerOpts then true else hasPointerToken rest
  end.

(** The loop over [decl.Doc.List]: [(hasMarker, hasPointerOpts)]. *)
Fixpoint scanDoc (l : list Comment) : bool * bool :=
  match l with
  | [] => (false, false)
  | comment :: rest =>
      if strings.HasPrefix (strings.TrimSpace (Text comment)) commentMarker
      then (true, hasPointerToken (strings.Fields (Text comment)))
      else scanDoc rest
  end.

Definition importMatches (imp : ImportSpec) (pkgName : string) : bool :=
  match Import_Name imp with
  | None => String.eqb (path.Base (strings.Trim (Import_Path imp) DQ)) pkgName
  | Some n => String.eqb n pkgName
  end.

(** The loop over [file.Imports]: the first import that matches is
    appended, then [break]. *)
Fixpoint searchImports (imports : list ImportSpec) (pkgName : string)
  (importPackages : list ImportSpec) : list ImportSpec :=
  match imports with
  | [] => importPackages
  | imp :: rest =>
      if importMatches imp pkgName then (importPackages ++ [imp])%list
      else searchImports rest pkgName importPackages
  end.

Definition isSeparator (c : ascii) : bool :=
  negb (unicode.IsLetter c) && negb (Ascii.eqb c dot).

(** "resolve imports" *)
Definition resolveImports (imports : list ImportSpec) (fieldTypeText : string)
  (importPackages : list ImportSpec) : list ImportSpec :=
  fold_left
    (fun acc s =>
       match strings.SplitN2 s dot with
       | [ss0; _] => searchImports imports ss0 acc
       | _ => acc
       end)
    (strings.FieldsFunc fieldTypeText isSeparator) importPackages.

(** One round of the loop over [structType.Fields.List]. *)
Definition scanField (w : World) (file : File)
  (st : list FieldInfo * list ImportSpec) (field : Field)
  : Outcome (list FieldInfo * list ImportSpec) :=
  let '(fieldInfos, importPackages) := st in
  match Field_Tag field with
  | None => Ok st
  | Some tagValue =>
      match StructTag.Lookup (Unquote w) (strings.Trim tagValue BQ) "required" with
      | None => Ok st
      | Some constValue =>
          match Fprint_expr w (Field_Type field) with
          | inr err => Err err
          | inl fieldTypeText =>
              fieldName <-
                match Field_Names field with
                | n :: _ => Ok n
                | [] =>
                    match Field_Type field with
                    | Ident n => Ok n
                    | _ => Panic (PanicTypeAssertion "*ast.Ident")
                    end
                end ;;
              Ok ((fieldInfos ++ [ {| Type_ := fieldTypeText;
                                      Name := fieldName;
                                      ConstValue := constValue |} ])%list,
                  resolveImports (File_Imports file) fieldTypeText
                    importPackages)
          end
      end
  end.

(** The struct of one type specification: its fields are scanned, then the
    constructor is written to [body]. *)
Definition genStruct (w : World) (file : File) (hasPointerOpts : bool)
  (name : string) (fields : list Field) (st : string * list ImportSpec)
  : Outcome (string * list ImportSpec) :=
  let '(body, importPackages) := st in
  r <- foldM (scanField w file) fields ([], importPackages) ;;
  let '(fieldInfos, importPackages) := r in
  txt <- executeConstructor w {| StructName := name;
                                 Fields := fieldInfos;
                                 Pointer := hasPointerOpts |} ;;
  Ok (body ++ txt, importPackages).

(** One round of the loop over [decl.Specs]. *)
Definition genSpec (w : World) (file : File) (hasPointerOpts : bool)
  (st : string * list ImportSpec) (spec : Spec)
  : Outcome (string * list ImportSpec) :=
  match spec with
  | TypeSpec name (StructType fields) =>
      genStruct w file hasPointerOpts name fields st
  | TypeSpec _ (NotStruct _) => Ok st
  | _ => Panic (PanicTypeAssertion "*ast.TypeSpec")
  end.

(** One round of the loop over [file.Decls]. *)
Definition genDecl (w : World) (file : File) (st : string * list ImportSpec)
  (decl : Decl) : Outcome (string * list ImportSpec) :=
  match decl with
  | GenDecl TYPE (Some doc) specs =>
      let '(hasMarker, hasPointerOpts) := scanDoc doc in
      if negb hasMarker then Ok st
      else foldM (genSpec w file hasPointerOpts) specs st
  | _ => Ok st
  end.

Definition genFile (w : World) (st : string * list ImportSpec) (file : File)
  : Outcome (string * list ImportSpec) :=
  foldM (genDecl w file) (File_Decls file) st.

(** [sort.Strings] *)
Fixpoint insertName (x : string) (l : list string) : list string :=
  match l with
  | [] => [x]
  | y :: l' => if String.ltb x y then x :: l else y :: insertName x l'
  end.

Fixpoint sortStrings (l : list string) : list string :=
  match l with
  | [] => []
  | x :: l' => insertName x (sortStrings l')
  end.

Fixpoint filesIndex (m : list (string * File)) (k : string) : option File :=
  match m with
  | [] => None
  | (k', f) :: m' => if String.eqb k k' then Some f else filesIndex m' k
  end.

(** The files of a package in the order of their names. *)
Definition sortedFileList (pkg : Package) : list File :=
  flat_map
    (fun name => match filesIndex (Pkg_Files pkg) name with
                 | Some f => [f]
                 | None => []
                 end)
    (sortStrings (map fst (Pkg_Files pkg))).

(** The body of the loop over [pkgMap] up to [format.Source]: [None] is the
    [continue] of a package without constructors, [Some str] the text handed
    to the writer. *)
Definition genPackage (w : World) (opt : option_) (pkg : Package)
  : Outcome (option string) :=
  r <- foldM (genFile w) (sortedFileList pkg) ("", []) ;;
  let '(body, importPackages) := r in
  if Nat.eqb (String.length body) 0 then Ok None
  else
    match Template_Parse w "out" with
    | Some e => Panic (PanicError e)
    | None =>
        imports <- fmtImports w importPackages ;;
        let d := {| GeneratorName := generatorName opt;
                    PackageName := Pkg_Name pkg;
                    ImportPackages := imports;
                    Body := body |} in
        match Execute_out w d with
        | Some err => Err err
        | None =>
            match Source w (renderOut d) with
            | inr err => Err err
            | inl str => Ok (Some str)
            end
        end
    end.

(** The loop over [pkgMap]; [trace] is what the sink has seen so far. *)
Fixpoint runPackages (w : World) (opt : option_) (pkgs : list Package)
  (trace : list Event) : Outcome unit * list Event :=
  match pkgs with
  | [] => (Ok tt, trace)
  | pkg :: rest =>
      match genPackage w opt pkg with
      | Ok None => runPackages w opt rest trace
      | Ok (Some str) =>
          let trace := (trace ++ [NewWriter (Pkg_Name pkg)])%list in
          match Write w pkg str with
          | Some err => (Err err, trace)
          | None =>
              runPackages w opt rest
                (trace ++ [Written (Pkg_Name pkg) str])%list
          end
      | Err e => (Err e, trace)
      | Panic p => (Panic p, trace)
      end
  end.

(** The options of a run: the default, then every [opt(&option)]. *)
Definition applyOptions (opts : list Option) : option_ :=
  fold_left (fun o opt => opt o) opts
    {| fileFilter := None; generatorName := "go-genconstructor" |}.

(** [Run]: [Ok tt] is the return of [nil], [Err e] the return of an error
    and [Panic p] a panic; the second component is what reached the sink. *)
Definition Run (w : World) (targetDir : string) (opts : list Option)
  : Outcome unit * list Event :=
  let option := applyOptions opts in
  match ParseDir w targetDir (fileFilter option) with
  | inr err => (Err err, [])
  | inl pkgMap => runPackages w option pkgMap []
  end.

(** ** A world in which nothing fails

    The printer writes the nodes the way [go/printer] does for these kinds;
    [Unquote] removes the quotes of a literal without escape sequences and
    rejects any other; both templates parse and execute; the formatter
    leaves the text as it is (it keeps the tokens, not the layout, of what
    [format.Source] returns); the writer accepts everything. *)

Fixpoint printExpr (e : Expr) : string :=
  match e with
  | Ident n => n
  | SelectorExpr x sel => printExpr x ++ "." ++ sel
  | StarExpr x => "*" ++ printExpr x
  | ArrayType elt => "[]" ++ printExpr elt
  | MapType k v => "map[" ++ printExpr k ++ "]" ++ printExpr v
  | OtherExpr src => src
  end.

Definition printImport (i : ImportSpec) : string :=
  match Import_Name i with
  | Some n => n ++ " " ++ Import_Path i
  | None => Import_Path i
  end.

Definition unquotePlain (q : string) : option string :=
  let inner := take (String.length q - 2) (drop 1 q) in
  if String.eqb q (DQ ++ inner ++ DQ)
     && negb (strings.Contains inner "\")
     && negb (strings.Contains inner NL)
     && negb (strings.Contains inner DQ)
  then Some inner
  else None.

Definition quietWorld (parsed : list Package) : World :=
  {| ParseDir := fun _ _ => inl parsed;
     Fprint_expr := fun e => inl (printExpr e);
     Fprint_import := fun i => inl (printImport i);
     Unquote := unquotePlain;
     Template_Parse := fun _ => None;
     Execute_constructor := fun _ => None;
     Execute_out := fun _ => None;
     Source := fun src => inl src;
     Write := fun _ _ => None |}.

(** A package of one file that holds one type declaration. *)
Definition onePackage (pkgName : string) (imports : list ImportSpec)
  (doc : option (list Comment)) (name : string) (ty : TypeExpr) : Package :=
  {| Pkg_Name := pkgName;
     Pkg_Files :=
       [ ("a.go",
          {| File_Decls := [GenDecl TYPE doc [TypeSpec name ty]];
             File_Imports := imports |}) ] |}.

(** [`required:"v"`], the tag literal with its back quotes. *)
Definition requiredTag (v : string) : string :=
  BQ ++ "required:" ++ DQ ++ v ++ DQ ++ BQ.

Definition marker : option (list Comment) :=
  Some [ {| Text := "//genconstructor" |} ].

(** ** Inputs and predicates of the statements *)

(** A key that does not begin with an upper-case letter. *)
Definition startsLower (k : string) : Prop :=
  match k with
  | "" => False
  | String c _ => unicode.IsUpper c = false
  end.

(** The run of upper-case letters at the front of [s]. *)
Definition upperRun (s : string) : string :=
  take (match strings.IndexFunc s (fun c => negb (unicode.IsUpper c)) with
        | Some i => i
        | None => String.length s
        end) s.

Definition noFile : File := {| File_Decls := []; File_Imports := [] |}.

(** [A string] without a tag and [B int `required:"7"`]. *)
Definition fieldsAB : list Field :=
  [ mkField ["A"] (Ident "string") None;
    mkField ["B"] (Ident "int") (Some (requiredTag "7")) ].

(** The constructor that is generated for [fieldsAB]. *)
Definition constructorB7 (name : string) : string :=
  indent 6 ++ "func New" ++ name ++ "("
  ++ indent 6 ++ ") " ++ name ++ " {"
  ++ indent 7 ++ "return " ++ name ++ "{"
  ++ indent 10 ++ "B: 7,"
  ++ indent 7 ++ "}"
  ++ indent 6 ++ "}"
  ++ indent 5.

(** [Run] comes to [pkg] with [trace] on the sink: the packages before it
    went through. *)
Inductive ReachesPackage (w : World) (opt : option_) (pkgs : list Package)
  (pkg : Package) (trace : list Event) : Prop :=
| reachesPackage (pre post : list Package) :
    pkgs = (pre ++ pkg :: post)%list ->
    runPackages w opt pre [] = (Ok tt, trace) ->
    ReachesPackage w opt pkgs pkg trace.

(** Within [pkg], the loops come to the structure [name] of a marked
    declaration of [file], with [st] collected so far: the files,
    declarations and specifications before it went through. *)
Inductive ReachesStruct (w : World) (pkg : Package) (file : File)
  (hasPointerOpts : bool) (name : string) (fields : list Field)
  (st : string * list ImportSpec) : Prop :=
| reachesStruct fs1 fs2 st1 ds1 doc specs ds2 st2 ss1 ss2 :
    sortedFileList pkg = (fs1 ++ file :: fs2)%list ->
    foldM (genFile w) fs1 ("", []) = Ok st1 ->
    File_Decls file = (ds1 ++ GenDecl TYPE (Some doc) specs :: ds2)%list ->
    foldM (genDecl w file) ds1 st1 = Ok st2 ->
    scanDoc doc = (true, hasPointerOpts) ->
    specs = (ss1 ++ TypeSpec name (StructType fields) :: ss2)%list ->
    foldM (genSpec w file hasPointerOpts) ss1 st2 = Ok st ->
    ReachesStruct w pkg file hasPointerOpts name fields st.

(** Within the structure, the loop comes to [field] with [st] collected so
    far. *)
Inductive ReachesField (w : World) (file : File) (fields : list Field)
  (importPackages : list ImportSpec) (field : Field)
  (st : list FieldInfo * list ImportSpec) : Prop :=
| reachesField fl1 fl2 :
    fields = (fl1 ++ field :: fl2)%list ->
    foldM (scanField w file) fl1 ([], importPackages) = Ok st ->
    ReachesField w file fields importPackages field st.

(** Worlds in which one call fails. *)
Definition failExecuteOut (e : error) (w : World) : World :=
  {| ParseDir := ParseDir w;
     Fprint_expr := Fprint_expr w;
     Fprint_import := Fprint_import w;
     Unquote := Unquote w;
     Template_Parse := Template_Parse w;
     Execute_constructor := Execute_constructor w;
     Execute_out := fun _ => Some e;
     Source := Source w;
     Write := Write w |}.

Definition failFprintExpr (bad : Expr) (e : error) (w : World) : World :=
  {| ParseDir := ParseDir w;
     Fprint_expr := fun x =>
       match x, bad with
       | Ident a, Ident b => if String.eqb a b then inr e else Fprint_expr w x
       | _, _ => Fprint_expr w x
       end;
     Fprint_import := Fprint_import w;
     Unquote := Unquote w;
     Template_Parse := Template_Parse w;
     Execute_constructor := Execute_constructor w;
     Execute_out := Execute_out w;
     Source := Source w;
     Write := Write w |}.

(** A structure without fields, marked. *)
Definition emptyFoo : Package :=
  onePackage "p" [] marker "Foo" (StructType []).

Definition failTemplateParse (name : string) (e : error) (w : World) : World :=
  {| ParseDir := ParseDir w;
     Fprint_expr := Fprint_expr w;
     Fprint_import := Fprint_import w;
     Unquote := Unquote w;
     Template_Parse := fun n =>
       if String.eqb n name then Some e else Template_Parse w n;
     Execute_constructor := Execute_constructor w;
     Execute_out := Execute_out w;
     Source := Source w;
     Write := Write w |}.

Definition eventPackage (ev : Event) : string :=
  match ev with
  | NewWriter pkg => pkg
  | Written pkg _ => pkg
  end.

(** The file of [onePackage]. *)
Definition oneFile (imports : list ImportSpec) (doc : option (list Comment))
  (name : string) (ty : TypeExpr) : File :=
  {| File_Decls := [GenDecl TYPE doc [TypeSpec name ty]];
     File_Imports := imports |}.

(** An embedded [time.Time] whose tag has the key [required] with an empty
    value. *)
Definition embeddedTime : Field :=
  mkField [] (SelectorExpr (Ident "time") "Time") (Some (requiredTag "")).

Definition fooEmbedsTime : Package :=
  onePackage "p" [mkImportSpec None (DQ ++ "time" ++ DQ)] marker "Foo"
    (StructType [embeddedTime]).

(** [Name string] with the key [required] and an empty value, in a
    structure of a second package. *)
Definition nameField : Field :=
  mkField ["Name"] (Ident "string") (Some (requiredTag "")).

Definition barPackage : Package :=
  onePackage "q" [] marker "Bar" (StructType [nameField]).

(** A comment line that, white space apart, begins with the marker: the
    test [Run] makes. *)
Definition beginsWithMarker (c : Comment) : bool :=
  strings.HasPrefix (strings.TrimSpace (Text c)) commentMarker.

(** A comment line whose first word is the marker itself. *)
Definition firstWordIsMarker (c : Comment) : bool :=
  match strings.Fields (strings.TrimSpace (Text c)) with
  | word :: _ => String.eqb word commentMarker
  | [] => false
  end.

Definition docLines (doc : option (list Comment)) : list Comment :=
  match doc with
  | Some l => l
  | None => []
  end.

(** A type declaration of one specification. *)
Definition typeDecl (doc : option (list Comment)) (name : string)
  (ty : TypeExpr) : Decl :=
  GenDecl TYPE doc [TypeSpec name ty].

(** The two shapes of a constructor, given the text of its parameters and
    of its initializers. *)
Definition valueConstructor (name params inits : string) : string :=
  indent 6 ++ "func New" ++ name ++ "(" ++ params
  ++ indent 6 ++ ") " ++ name ++ " {"
  ++ indent 7 ++ "return " ++ name ++ "{" ++ inits
  ++ indent 7 ++ "}"
  ++ indent 6 ++ "}"
  ++ indent 5.

Definition pointerConstructor (name params inits : string) : string :=
  indent 6 ++ "func New" ++ name ++ "(" ++ params
  ++ indent 6 ++ ") *" ++ name ++ " {"
  ++ indent 7 ++ "return &" ++ name ++ "{" ++ inits
  ++ indent 7 ++ "}"
  ++ indent 6 ++ "}"
  ++ indent 5.

(** A doc comment whose only line is the marker with a letter appended. *)
Definition markerWithSuffix : option (list Comment) :=
  Some [ {| Text := "//genconstructorx" |} ].

Definition markerPointer : option (list Comment) :=
  Some [ {| Text := "// Foo is a thing." |};
         {| Text := "//genconstructor -p" |} ].

(** The package part of a token [package.Identifier]: what stands before
    the first dot of a token that has one. *)
Definition referencedPackage (token : string) : option string :=
  match strings.SplitN2 token dot with
  | [p; _] => Some p
  | _ => None
  end.

(** The import that a token makes [Run] record: the first import of the
    file, in the order of its import declarations, that matches the package
    part of the token; none when no import matches or the token has no dot. *)
Definition importOfToken (imports : list ImportSpec) (token : string)
  : list ImportSpec :=
  match referencedPackage token with
  | Some p =>
      match find (fun imp => importMatches imp p) imports with
      | Some imp => [imp]
      | None => []
      end
  | None => []
  end.

(** The order of [sort.Slice] in [fmtImports]. *)
Definition pathLe (a b : ImportSpec) : Prop :=
  String.leb (Import_Path a) (Import_Path b) = true.

(** The printed imports of a group, a line each. *)
Fixpoint importLines (txt : ImportSpec -> string) (group : list ImportSpec)
  : string :=
  match group with
  | [] => ""
  | pkg :: rest => txt pkg ++ NL ++ importLines txt rest
  end.

Definition importTime : ImportSpec := mkImportSpec None (DQ ++ "time" ++ DQ).
Definition importFmt : ImportSpec := mkImportSpec None (DQ ++ "fmt" ++ DQ).
Definition importURL : ImportSpec :=
  mkImportSpec (Some "url") (DQ ++ "github.com/x/y" ++ DQ).
Definition importErrors : ImportSpec :=
  mkImportSpec None (DQ ++ "github.com/pkg/errors" ++ DQ).

(** [Deadline map[string]*time.Time] with the key [required]. *)
Definition deadlineField : Field :=
  mkField ["Deadline"]
    (MapType (Ident "string") (StarExpr (SelectorExpr (Ident "time") "Time")))
    (Some (requiredTag "")).

(** [Foo] with the fields [fieldsAB], in the package [p]. *)
Definition fooPackage : Package :=
  onePackage "p" [] marker "Foo" (StructType fieldsAB).

(** The world in which the "out" template fails to execute. *)
Definition outFailsWorld : World :=
  failExecuteOut "out: execution failed" (quietWorld [emptyFoo]).

(** Three packages, in a world whose printer fails on the type [int]. *)
Definition intFailsWorld : World :=
  failFprintExpr (Ident "int") "printer: failed"
    (quietWorld [barPackage; fooPackage; emptyFoo]).

(** ** Further predicates and inputs *)

(** A declaration that [Run] passes over: not a type declaration, or one
    without a doc comment, or one whose doc comment has no marker line. *)
Definition unmarkedDecl (d : Decl) : bool :=
  match d with
  | GenDecl TYPE (Some doc) _ => negb (existsb beginsWithMarker doc)
  | _ => true
  end.

Definition unmarkedPackage (pkg : Package) : bool :=
  forallb (fun kf => forallb unmarkedDecl (File_Decls (snd kf)))
    (Pkg_Files pkg).

(** The value of the key [required] in the tag of a field, if it has one. *)
Definition requiredValue (w : World) (field : Field) : option string :=
  match Field_Tag field with
  | None => None
  | Some tagValue =>
      StructTag.Lookup (Unquote w) (strings.Trim tagValue BQ) "required"
  end.

(** The first name of a field or, for an embedded field, its type name. *)
Definition declaredName (field : Field) : string :=
  match Field_Names field with
  | n :: _ => n
  | [] => match Field_Type field with
          | Ident n => n
          | _ => ""
          end
  end.

(** What a field contributes to a constructor: its name and constant. *)
Definition collected (w : World) (field : Field) : list (string * string) :=
  match requiredValue w field with
  | Some v => [(declaredName field, v)]
  | None => []
  end.

Definition isParameter (f : FieldInfo) : bool := String.eqb (ConstValue f) "".

Definition paramLine (f : FieldInfo) : string :=
  indent 9 ++ toLowerCamel (Name f) ++ " " ++ Type_ f ++ ",".

(** What a package that goes through leaves on the sink. *)
Definition packageEvents (w : World) (opt : option_) (pkg : Package)
  : list Event :=
  match genPackage w opt pkg with
  | Ok (Some str) => [NewWriter (Pkg_Name pkg); Written (Pkg_Name pkg) str]
  | _ => []
  end.

(** The data of the "out" template for a package. *)
Definition outData (opt : option_) (pkg : Package) (imports body : string)
  : outParam :=
  {| GeneratorName := generatorName opt;
     PackageName := Pkg_Name pkg;
     ImportPackages := imports;
     Body := body |}.

(** ** The command ([main.go]) *)

Module main.

(** The file filter that [Main] hands to [Run], on [finfo.Name()]. *)
Definition testFileFilter (name : string) : bool :=
  negb (strings.HasSuffix name "_test.go").

(** [fmt.Sprintf("%s_constructor_gen.go", pkg.Name)] *)
Definition dstFileName (pkgName : string) : string :=
  pkgName ++ "_constructor_gen.go".

(** [targetDir]: the first argument after the program name, or ".". *)
Definition targetDir (args : list string) : string :=
  match args with
  | _ :: dir :: _ => dir
  | _ => "."
  end.

End main.

Definition failSource (e : error) (w : World) : World :=
  {| ParseDir := ParseDir w;
     Fprint_expr := Fprint_expr w;
     Fprint_import := Fprint_import w;
     Unquote := Unquote w;
     Template_Parse := Template_Parse w;
     Execute_constructor := Execute_constructor w;
     Execute_out := Execute_out w;
     Source := fun _ => inr e;
     Write := Write w |}.

Definition failWrite (e : error) (w : World) : World :=
  {| ParseDir := ParseDir w;
     Fprint_expr := Fprint_expr w;
     Fprint_import := Fprint_import w;
     Unquote := Unquote w;
     Template_Parse := Template_Parse w;
     Execute_constructor := Execute_constructor w;
     Execute_out := Execute_out w;
     Source := Source w;
     Write := fun _ _ => Some e |}.

Definition failFprintImport (e : error) (w : World) : World :=
  {| ParseDir := ParseDir w;
     Fprint_expr := Fprint_expr w;
     Fprint_import := fun _ => inr e;
     Unquote := Unquote w;
     Template_Parse := Template_Parse w;
     Execute_constructor := Execute_constructor w;
     Execute_out := Execute_out w;
     Source := Source w;
     Write := Write w |}.

(** A package whose only declaration has no doc comment. *)
Definition plainPackage : Package :=
  onePackage "p" [] None "Foo" (StructType fieldsAB).

(** An embedded [*Base] with the key [required]. *)
Definition embeddedPointer : Field :=
  mkField [] (StarExpr (Ident "Base")) (Some (requiredTag "")).

(** [st'] continues [st]: text was appended to the body, and imports that
    satisfy [P] were appended to the recorded imports. *)
Definition extends (P : ImportSpec -> Prop) (st st' : string * list ImportSpec)
  : Prop :=
  (exists txt, fst st' = fst st ++ txt)
  /\ exists extra, snd st' = (snd st ++ extra)%list /\ Forall P extra.

Definition nameAndConstant (fi : FieldInfo) : string * string :=
  (Name fi, ConstValue fi).


(** Two lists of imports with [NoDup] paths, one a reordering of the
    other. *)
Definition importsABC : list ImportSpec :=
  [importURL; importTime; importErrors; importFmt].

Definition importsCBA : list ImportSpec :=
  [importFmt; importErrors; importTime; importURL].

(** The order of a sort by a key of type [string]. *)
Definition keyLe {A : Type} (key : A -> string) (a b : A) : Prop :=
  String.leb (key a) (key b) = true.

(** A text without a dot. *)
Definition noDot (s : string) : Prop := strings.IndexByte s dot = None.

(** A text without a double quote and without a backslash: the constants
    that need no escape in a tag. *)
Fixpoint plainValue (v : string) : bool :=
  match v with
  | "" => true
  | String c v' =>
      negb (Ascii.eqb c "034"%char) && negb (Ascii.eqb c "\"%char)
      && plainValue v'
  end.

(** The imports that the type text of a collected field records. *)
Definition importsOfField (file : File) (fi : FieldInfo) : list ImportSpec :=
  flat_map (importOfToken (File_Imports file))
    (strings.FieldsFunc (Type_ fi) isSeparator).

(** Two fields of the same qualified type. *)
Definition createdField : Field :=
  mkField ["Created"] (SelectorExpr (Ident "time") "Time")
    (Some (requiredTag "")).

Definition updatedField : Field :=
  mkField ["Updated"] (SelectorExpr (Ident "time") "Time")
    (Some (requiredTag "")).

(** ** Text within ASCII, and the text of a constructor *)

(** Every byte is below 128: the text on which the byte-wise
    [unicode.IsUpper], [unicode.IsLetter] and [strings.ToLower] are the
    functions of Go. *)
Fixpoint isASCII (s : string) : bool :=
  match s with
  | "" => true
  | String c s' => Nat.ltb (nat_of_ascii c) 128 && isASCII s'
  end.

(** The text of a constructor, given the text of its parameters and of its
    initializers. *)
Definition constructorText (ptr : bool) (name params inits : string)
  : string :=
  if ptr then pointerConstructor name params inits
  else valueConstructor name params inits.

(** An import answers to the package name [p]: by its alias or, without an
    alias, by the last element of its path. *)
Definition matchesByAliasOrBase (imp : ImportSpec) (p : string) : Prop :=
  Import_Name imp = Some p
  \/ (Import_Name imp = None
      /\ path.Base (strings.Trim (Import_Path imp) DQ) = p).

(** A no-break space, U+00A0. *)
Definition NBSP : string := String "194"%char (String "160"%char "").

(** [ID string] with the key [required] and an empty value. *)
Definition idField : Field :=
  mkField ["ID"] (Ident "string") (Some (requiredTag "")).

(** What a token makes [Run] record, in the words of the specification:
    nothing when the token has no dot; otherwise, with [p] the text before
    its first dot, the first import of the file, in the order of the import
    declarations, that answers to [p], or nothing when none does. *)
Inductive TokenRecords (imports : list ImportSpec) (token : string)
  : list ImportSpec -> Prop :=
| recordsNoDot :
    strings.IndexByte token dot = None ->
    TokenRecords imports token []
| recordsFirstMatch (p rest : string) (pre post : list ImportSpec)
    (imp : ImportSpec) :
    strings.SplitN2 token dot = [p; rest] ->
    imports = (pre ++ imp :: post)%list ->
    (forall i, In i pre -> ~ matchesByAliasOrBase i p) ->
    matchesByAliasOrBase imp p ->
    TokenRecords imports token [imp]
| recordsNoMatch (p rest : string) :
    strings.SplitN2 token dot = [p; rest] ->
    (forall i, In i imports -> ~ matchesByAliasOrBase i p) ->
    TokenRecords imports token [].

(** A field type that refers to a package that the file does not import. *)
Definition orphanField : Field :=
  mkField ["When"] (SelectorExpr (Ident "clock") "Time")
    (Some (requiredTag "")).

(** * Properties *)

(** ** Loops and aborts *)

Lemma bind_Ok_r {A : Type} (m : Outcome A) : bind m Ok = m.
Proof. destruct m; reflexivity. Qed.

Lemma foldM_app {A S : Type} (f : S -> A -> Outcome S) (l1 l2 : list A)
  (s : S) :
  foldM f (l1 ++ l2)%list s = bind (foldM f l1 s) (foldM f l2).
Proof.
  revert s; induction l1 as [|a l1 IH]; intros s; simpl.
  - reflexivity.
  - destruct (f s a); simpl; auto.
Qed.

(** A round that returns an error ends the loop with that error, provided
    the rounds before it went through. *)
Lemma foldM_Err_at {A S : Type} (f : S -> A -> Outcome S) l1 a l2 s s1 e :
  foldM f l1 s = Ok s1 -> f s1 a = Err e ->
  foldM f (l1 ++ a :: l2)%list s = Err e.
Proof.
  intros H1 H2. rewrite foldM_app, H1. simpl. rewrite H2. reflexivity.
Qed.

Lemma foldM_Panic_at {A S : Type} (f : S -> A -> Outcome S) l1 a l2 s s1 p :
  foldM f l1 s = Ok s1 -> f s1 a = Panic p ->
  foldM f (l1 ++ a :: l2)%list s = Panic p.
Proof.
  intros H1 H2. rewrite foldM_app, H1. simpl. rewrite H2. reflexivity.
Qed.

Lemma foldM_one {A S : Type} (f : S -> A -> Outcome S) a s :
  foldM f [a] s = f s a.
Proof. simpl. apply bind_Ok_r. Qed.

(** ** Strings *)

Lemma append_nil_r (s : string) : s ++ "" = s.
Proof. induction s as [|c s IH]; simpl; congruence. Qed.

Lemma append_assoc (a b c : string) : (a ++ b) ++ c = a ++ b ++ c.
Proof. induction a as [|x a IH]; simpl; congruence. Qed.

Lemma length_append (a b : string) :
  String.length (a ++ b) = String.length a + String.length b.
Proof. induction a as [|x a IH]; simpl; congruence. Qed.

Lemma append_inv_head (a b c : string) : a ++ b = a ++ c -> b = c.
Proof.
  induction a as [|x a IH]; simpl; intros H.
  - exact H.
  - injection H as H. auto.
Qed.

Lemma renderRange_app (body : FieldInfo -> string) l1 l2 :
  renderRange body (l1 ++ l2)%list
  = renderRange body l1 ++ renderRange body l2.
Proof.
  induction l1 as [|x l1 IH]; simpl.
  - reflexivity.
  - rewrite IH, append_assoc. reflexivity.
Qed.

Lemma renderRange_snoc (body : FieldInfo -> string) l f :
  renderRange body (l ++ [f])%list = renderRange body l ++ body f.
Proof. rewrite renderRange_app. simpl. rewrite append_nil_r. reflexivity. Qed.

(** ** [toLowerCamel] *)

Lemma mapIndex_true_In (m : list (string * bool)) (k : string) :
  mapIndex m k = true -> In k (map fst m).
Proof.
  induction m as [|[k' v] m IH]; simpl; intros H.
  - discriminate.
  - destruct (String.eqb_spec k k') as [->|_]; auto.
Qed.

(** No key of the table begins with an upper-case letter. *)
Lemma commonInitialisms_keys_lower :
  Forall startsLower (map fst commonInitialismsTable).
Proof. repeat constructor. Qed.

Lemma commonInitialisms_startsLower (k : string) :
  commonInitialisms k = true -> startsLower k.
Proof.
  intros H. apply mapIndex_true_In in H.
  exact (proj1 (Forall_forall _ _) commonInitialisms_keys_lower k H).
Qed.

Lemma upperRun_not_startsLower (s : string) : ~ startsLower (upperRun s).
Proof.
  unfold upperRun. destruct s as [|c s]; simpl.
  - auto.
  - destruct (unicode.IsUpper c) eqn:E; simpl.
    + destruct (strings.IndexFunc s _); simpl; congruence.
    + auto.
Qed.

(** The table is never hit: the key that is looked up is a run of
    upper-case letters, the keys of the table are in lower case. *)
Lemma commonInitialisms_upperRun (s : string) :
  commonInitialisms (upperRun s) = false.
Proof.
  destruct (commonInitialisms (upperRun s)) eqn:E; [|reflexivity].
  apply commonInitialisms_startsLower in E.
  destruct (upperRun_not_startsLower s E).
Qed.

Lemma toLowerCamel_first_byte (s : string) :
  toLowerCamel s = strings.ToLower (take 1 s) ++ drop 1 s.
Proof.
  unfold toLowerCamel.
  destruct (String.eqb_spec s "") as [->|_]; [reflexivity|].
  fold (upperRun s). rewrite commonInitialisms_upperRun. reflexivity.
Qed.

(** C2.  The field name "ID" should become "id" through the table of
    initialisms, and it does not.  [toLowerCamel] looks up the leading run
    of upper-case letters, "ID", in a table whose keys are written in lower
    case, so the branch of the initialisms is never taken: "ID" becomes
    "iD" (and "URL" becomes "uRL"), only the first letter being lowered, as
    for "Name" and for every other name. *)
Theorem C2_toLowerCamel_ID :
  toLowerCamel "ID" = "iD"
  /\ toLowerCamel "URL" = "uRL"
  /\ toLowerCamel "Name" = "name"
  /\ commonInitialisms "ID" = false
  /\ commonInitialisms "id" = true
  /\ (forall s, toLowerCamel s = strings.ToLower (take 1 s) ++ drop 1 s).
Proof.
  repeat split; try reflexivity. exact toLowerCamel_first_byte.
Qed.

(** ** Which fields a constructor takes *)

Lemma Lookup_requiredTag_7 (unquote : string -> option string) :
  StructTag.Lookup unquote (strings.Trim (requiredTag "7") BQ) "required"
  = unquote (DQ ++ "7" ++ DQ).
Proof. reflexivity. Qed.

(** C1, as stated, fails: for the structure [Foo] with [A string] and
    [B int `required:"7"`] the generated file has neither a parameter
    [a string] nor an initializer [A: a]; the constructor is [NewFoo()]. *)
Lemma C1_counterexample :
  exists txt,
    Run (quietWorld [onePackage "p" [] marker "Foo" (StructType fieldsAB)])
        "." []
    = (Ok tt, [NewWriter "p"; Written "p" txt])
    /\ strings.Contains txt "a string" = false
    /\ strings.Contains txt "A: a" = false
    /\ strings.Contains txt ("func NewFoo(" ++ indent 6 ++ ") Foo {") = true.
Proof.
  eexists. split; [reflexivity|]. repeat split; reflexivity.
Qed.

(** C1, amended.  For a marked structure with the fields [A string] (no
    tag) and [B int `required:"7"`] the untagged field [A] is skipped: the
    generated constructor takes no parameter and returns the structure
    literal that initializes only [B], to the constant 7. *)
Theorem C1_untagged_field_skipped (w : World) (file : File) (name : string)
  (body : string) (importPackages : list ImportSpec) :
  Fprint_expr w (Ident "int") = inl "int" ->
  Unquote w (DQ ++ "7" ++ DQ) = Some "7" ->
  Template_Parse w "constructor" = None ->
  (forall p, Execute_constructor w p = None) ->
  genStruct w file false name fieldsAB (body, importPackages)
  = Ok (body ++ constructorB7 name, importPackages).
Proof.
  intros Hprint Hunq Hparse Hexec.
  unfold genStruct, fieldsAB. simpl foldM.
  rewrite Lookup_requiredTag_7, Hunq, Hprint. simpl.
  unfold executeConstructor. rewrite Hparse, Hexec. reflexivity.
Qed.

Lemma C1_untagged_field_skipped_witness :
  genStruct (quietWorld []) noFile false "Foo" fieldsAB ("", [])
  = Ok ("" ++ constructorB7 "Foo", []).
Proof.
  apply (C1_untagged_field_skipped (quietWorld []) noFile "Foo" "" []);
    reflexivity.
Defined.

(** What [scanField] does with a field that carries a [required] key. *)
Lemma scanField_required (w : World) (file : File) fieldInfos importPackages
  (field : Field) (tagValue constValue : string) st' :
  Field_Tag field = Some tagValue ->
  StructTag.Lookup (Unquote w) (strings.Trim tagValue BQ) "required"
  = Some constValue ->
  scanField w file (fieldInfos, importPackages) field = Ok st' ->
  exists fieldTypeText fieldName,
    Fprint_expr w (Field_Type field) = inl fieldTypeText
    /\ st' = ((fieldInfos ++ [ {| Type_ := fieldTypeText;
                                  Name := fieldName;
                                  ConstValue := constValue |} ])%list,
              resolveImports (File_Imports file) fieldTypeText
                importPackages).
Proof.
  intros Htag Hlook. unfold scanField. rewrite Htag, Hlook.
  destruct (Fprint_expr w (Field_Type field)) as [txt|e]; [|discriminate].
  destruct (Field_Names field) as [|n ns]; simpl.
  - destruct (Field_Type field); simpl; try discriminate.
    intros [= <-]. eauto.
  - intros [= <-]. eauto.
Qed.

(** ** How an abort travels up to [Run] *)

Lemma runPackages_app (w : World) (opt : option_) pre rest trace :
  runPackages w opt (pre ++ rest)%list trace
  = match runPackages w opt pre trace with
    | (Ok _, trace') => runPackages w opt rest trace'
    | r => r
    end.
Proof.
  revert trace; induction pre as [|pkg pre IH]; intros trace; simpl.
  - reflexivity.
  - destruct (genPackage w opt pkg) as [[str|]|e|p]; auto.
    destruct (Write w pkg str); auto.
Qed.

Lemma Run_Err_at (w : World) dir opts pkgs pkg trace e :
  ParseDir w dir (fileFilter (applyOptions opts)) = inl pkgs ->
  ReachesPackage w (applyOptions opts) pkgs pkg trace ->
  genPackage w (applyOptions opts) pkg = Err e ->
  Run w dir opts = (Err e, trace).
Proof.
  intros Hparse [pre post -> Hpre] Hpkg. unfold Run. rewrite Hparse.
  rewrite runPackages_app, Hpre. simpl. rewrite Hpkg. reflexivity.
Qed.

Lemma Run_Panic_at (w : World) dir opts pkgs pkg trace p :
  ParseDir w dir (fileFilter (applyOptions opts)) = inl pkgs ->
  ReachesPackage w (applyOptions opts) pkgs pkg trace ->
  genPackage w (applyOptions opts) pkg = Panic p ->
  Run w dir opts = (Panic p, trace).
Proof.
  intros Hparse [pre post -> Hpre] Hpkg. unfold Run. rewrite Hparse.
  rewrite runPackages_app, Hpre. simpl. rewrite Hpkg. reflexivity.
Qed.

(** The loops of a package, cut at a structure they come to. *)
Lemma genFiles_at_struct (w : World) pkg file ptr name fields st :
  ReachesStruct w pkg file ptr name fields st ->
  (forall e, genStruct w file ptr name fields st = Err e ->
             foldM (genFile w) (sortedFileList pkg) ("", []) = Err e)
  /\ (forall p, genStruct w file ptr name fields st = Panic p ->
                foldM (genFile w) (sortedFileList pkg) ("", []) = Panic p).
Proof.
  intros [fs1 fs2 st1 ds1 doc specs ds2 st2 ss1 ss2
            Hfiles Hfs1 Hdecls Hds1 Hdoc -> Hss1].
  rewrite Hfiles. split.
  - intros e He. eapply foldM_Err_at; [exact Hfs1|].
    unfold genFile. rewrite Hdecls.
    eapply foldM_Err_at; [exact Hds1|].
    unfold genDecl. rewrite Hdoc. simpl negb. cbv iota.
    eapply foldM_Err_at; [exact Hss1|]. exact He.
  - intros p Hp. eapply foldM_Panic_at; [exact Hfs1|].
    unfold genFile. rewrite Hdecls.
    eapply foldM_Panic_at; [exact Hds1|].
    unfold genDecl. rewrite Hdoc. simpl negb. cbv iota.
    eapply foldM_Panic_at; [exact Hss1|]. exact Hp.
Qed.

Lemma genPackage_Err_at_struct (w : World) opt pkg file ptr name fields st e :
  ReachesStruct w pkg file ptr name fields st ->
  genStruct w file ptr name fields st = Err e ->
  genPackage w opt pkg = Err e.
Proof.
  intros Hr He. unfold genPackage.
  rewrite (proj1 (genFiles_at_struct _ _ _ _ _ _ _ Hr) e He). reflexivity.
Qed.

Lemma genPackage_Panic_at_struct (w : World) opt pkg file ptr name fields st p :
  ReachesStruct w pkg file ptr name fields st ->
  genStruct w file ptr name fields st = Panic p ->
  genPackage w opt pkg = Panic p.
Proof.
  intros Hr Hp. unfold genPackage.
  rewrite (proj2 (genFiles_at_struct _ _ _ _ _ _ _ Hr) p Hp). reflexivity.
Qed.

(** The loop over the fields, cut at a field it comes to. *)
Lemma genStruct_Err_at_field (w : World) file ptr name fields body imports
  field stf e :
  ReachesField w file fields imports field stf ->
  scanField w file stf field = Err e ->
  genStruct w file ptr name fields (body, imports) = Err e.
Proof.
  intros [fl1 fl2 -> Hfl1] He. unfold genStruct.
  rewrite (foldM_Err_at _ _ _ _ _ _ _ Hfl1 He). reflexivity.
Qed.

Lemma genStruct_Panic_at_field (w : World) file ptr name fields body imports
  field stf p :
  ReachesField w file fields imports field stf ->
  scanField w file stf field = Panic p ->
  genStruct w file ptr name fields (body, imports) = Panic p.
Proof.
  intros [fl1 fl2 -> Hfl1] Hp. unfold genStruct.
  rewrite (foldM_Panic_at _ _ _ _ _ _ _ Hfl1 Hp). reflexivity.
Qed.

Lemma length_zero_iff (s : string) :
  Nat.eqb (String.length s) 0 = true <-> s = "".
Proof. destruct s; simpl; split; congruence. Qed.

(** Every event of a run of [pkgs] names one of [pkgs]. *)
Lemma runPackages_trace (w : World) opt pkgs trace0 r trace :
  runPackages w opt pkgs trace0 = (r, trace) ->
  exists new,
    trace = (trace0 ++ new)%list
    /\ forall ev, In ev new ->
         exists p, In p pkgs /\ eventPackage ev = Pkg_Name p.
Proof.
  revert trace0; induction pkgs as [|pkg pkgs IH]; intros trace0; simpl.
  - intros [= <- <-]. exists []. rewrite app_nil_r. split; [reflexivity|].
    intros ev [].
  - destruct (genPackage w opt pkg) as [[str|]|e|p].
    + destruct (Write w pkg str) as [err|].
      * intros [= <- <-]. exists [NewWriter (Pkg_Name pkg)].
        split; [reflexivity|]. intros ev [<-|[]]. eauto.
      * intros H. apply IH in H. destruct H as (new & -> & Hnew).
        exists (NewWriter (Pkg_Name pkg) :: Written (Pkg_Name pkg) str :: new).
        split; [rewrite <- !app_assoc; reflexivity|].
        intros ev [<-|[<-|Hin]]; eauto.
        destruct (Hnew ev Hin) as (p & Hp & Hev). eauto.
    + intros H. apply IH in H. destruct H as (new & -> & Hnew).
      exists new. split; [reflexivity|].
      intros ev Hin. destruct (Hnew ev Hin) as (p & Hp & Hev). eauto.
    + intros [= <- <-]. exists []. rewrite app_nil_r.
      split; [reflexivity|]. intros ev [].
    + intros [= <- <-]. exists []. rewrite app_nil_r.
      split; [reflexivity|]. intros ev [].
Qed.

(** ** Failures of the templates *)

(** C4, as stated, fails: when the execution of the "out" template fails,
    [Run] returns the error to its caller; it does not panic. *)
Lemma C4_counterexample :
  (forall d, Execute_out outFailsWorld d = Some "out: execution failed")
  /\ Run outFailsWorld "." [] = (Err "out: execution failed", []).
Proof. split; reflexivity. Qed.

(** C4, amended.  A failure to parse either template and a failure to
    execute the "constructor" template make [Run] panic with that error; a
    failure to execute the "out" template is returned by [Run] as an error
    value. *)
Theorem C4_template_failures (w : World) dir opts pkgs pkg trace (e : error) :
  ParseDir w dir (fileFilter (applyOptions opts)) = inl pkgs ->
  ReachesPackage w (applyOptions opts) pkgs pkg trace ->
  (forall file ptr name fields st fieldInfos importPackages,
      ReachesStruct w pkg file ptr name fields st ->
      foldM (scanField w file) fields ([], snd st)
      = Ok (fieldInfos, importPackages) ->
      Template_Parse w "constructor" = Some e
      \/ (Template_Parse w "constructor" = None
          /\ Execute_constructor w {| StructName := name;
                                      Fields := fieldInfos;
                                      Pointer := ptr |} = Some e) ->
      Run w dir opts = (Panic (PanicError e), trace))
  /\ (forall body importPackages,
        foldM (genFile w) (sortedFileList pkg) ("", [])
        = Ok (body, importPackages) ->
        body <> "" ->
        (Template_Parse w "out" = Some e ->
         Run w dir opts = (Panic (PanicError e), trace))
        /\ (forall imports,
              Template_Parse w "out" = None ->
              fmtImports w importPackages = Ok imports ->
              Execute_out w {| GeneratorName := generatorName (applyOptions opts);
                               PackageName := Pkg_Name pkg;
                               ImportPackages := imports;
                               Body := body |} = Some e ->
              Run w dir opts = (Err e, trace))).
Proof.
  intros Hparse Hpkg. split.
  - intros file ptr name fields [body imports] fis imps Hst Hscan Hfail.
    eapply Run_Panic_at; eauto.
    eapply genPackage_Panic_at_struct; eauto.
    unfold genStruct. simpl in Hscan. rewrite Hscan. simpl.
    unfold executeConstructor.
    destruct Hfail as [-> | [-> ->]]; reflexivity.
  - intros body imps Hfiles Hbody.
    assert (Hlen : Nat.eqb (String.length body) 0 = false).
    { destruct (Nat.eqb (String.length body) 0) eqn:E; [|reflexivity].
      apply length_zero_iff in E. contradiction. }
    split.
    + intros Hout. eapply Run_Panic_at; eauto.
      unfold genPackage. rewrite Hfiles. simpl. rewrite Hlen, Hout.
      reflexivity.
    + intros imports Hout Himports Hexec. eapply Run_Err_at; eauto.
      unfold genPackage. rewrite Hfiles. simpl.
      rewrite Hlen, Hout, Himports. simpl. rewrite Hexec. reflexivity.
Qed.

Lemma reaches_only_package (w : World) opt pkg :
  ReachesPackage w opt [pkg] pkg [].
Proof. apply (reachesPackage _ _ _ _ _ [] []); reflexivity. Qed.

Lemma reaches_only_struct (w : World) pkgName imports doc ptr name fields :
  scanDoc doc = (true, ptr) ->
  ReachesStruct w (onePackage pkgName imports (Some doc) name (StructType fields))
    (oneFile imports (Some doc) name (StructType fields))
    ptr name fields ("", []).
Proof.
  intros Hdoc.
  apply (reachesStruct _ _ _ _ _ _ _ [] [] ("", []) [] doc
           [TypeSpec name (StructType fields)] [] ("", []) [] []);
    try reflexivity. exact Hdoc.
Qed.

Lemma C4_template_failures_witness :
  Run (failTemplateParse "constructor" "constructor: parse failed"
         (quietWorld [emptyFoo])) "." []
  = (Panic (PanicError "constructor: parse failed"), []).
Proof.
  refine (proj1 (C4_template_failures
                   (failTemplateParse "constructor" "constructor: parse failed"
                      (quietWorld [emptyFoo]))
                   "." [] [emptyFoo] emptyFoo [] "constructor: parse failed"
                   eq_refl (reaches_only_package _ _ _))
            (oneFile [] marker "Foo" (StructType [])) false "Foo" []
            ("", []) [] [] _ eq_refl (or_introl eq_refl)).
  apply (reaches_only_struct _ "p" [] [ {| Text := "//genconstructor" |} ]).
  reflexivity.
Defined.

(** ** A field type that cannot be printed *)

Lemma scanField_print_fails (w : World) file st field tagValue v e :
  Field_Tag field = Some tagValue ->
  StructTag.Lookup (Unquote w) (strings.Trim tagValue BQ) "required" = Some v ->
  Fprint_expr w (Field_Type field) = inr e ->
  scanField w file st field = Err e.
Proof.
  intros Htag Hlook Hprint. unfold scanField. destruct st as [fis imps].
  rewrite Htag, Hlook, Hprint. reflexivity.
Qed.

(** C6.  When [Run] comes to a field with a [required] key whose type the
    printer fails on, [Run] returns the printer's error; the sink has seen
    only what the packages before the current one produced: every event on
    it names a package that precedes the current one. *)
Theorem C6_print_failure_aborts (w : World) dir opts pkgs pkg trace
  file ptr name fields st field stf tagValue v (e : error) :
  ParseDir w dir (fileFilter (applyOptions opts)) = inl pkgs ->
  ReachesPackage w (applyOptions opts) pkgs pkg trace ->
  ReachesStruct w pkg file ptr name fields st ->
  ReachesField w file fields (snd st) field stf ->
  Field_Tag field = Some tagValue ->
  StructTag.Lookup (Unquote w) (strings.Trim tagValue BQ) "required" = Some v ->
  Fprint_expr w (Field_Type field) = inr e ->
  Run w dir opts = (Err e, trace)
  /\ exists pre post,
       pkgs = (pre ++ pkg :: post)%list
       /\ forall ev, In ev trace ->
            exists p, In p pre /\ eventPackage ev = Pkg_Name p.
Proof.
  intros Hparse Hpkg Hst Hfield Htag Hlook Hprint. split.
  - eapply Run_Err_at; eauto.
    eapply genPackage_Err_at_struct; eauto.
    destruct st as [body imports].
    eapply genStruct_Err_at_field; eauto.
    eapply scanField_print_fails; eauto.
  - destruct Hpkg as [pre post -> Hpre]. exists pre, post.
    split; [reflexivity|].
    destruct (runPackages_trace _ _ _ _ _ _ Hpre) as (new & -> & Hnew).
    exact Hnew.
Qed.

(** In [intFailsWorld] the package [q] is written, then the type [int] of
    [B] in the package [p] fails to print: the error is returned, [p] and
    the package after it leave nothing on the sink. *)
Lemma C6_print_failure_aborts_witness :
  exists txt,
    Run intFailsWorld "." []
    = (Err "printer: failed", [NewWriter "q"; Written "q" txt])
    /\ exists pre post,
         [barPackage; fooPackage; emptyFoo] = (pre ++ fooPackage :: post)%list
         /\ forall ev, In ev [NewWriter "q"; Written "q" txt] ->
              exists p, In p pre /\ eventPackage ev = Pkg_Name p.
Proof.
  eexists.
  refine (C6_print_failure_aborts intFailsWorld "." []
            [barPackage; fooPackage; emptyFoo] fooPackage _
            (oneFile [] marker "Foo" (StructType fieldsAB)) false "Foo"
            fieldsAB ("", [])
            (mkField ["B"] (Ident "int") (Some (requiredTag "7"))) ([], [])
            (requiredTag "7") "7" "printer: failed"
            eq_refl _ _ _ eq_refl eq_refl eq_refl).
  - apply (reachesPackage _ _ _ _ _ [barPackage] [emptyFoo]); reflexivity.
  - apply (reaches_only_struct _ "p" [] [ {| Text := "//genconstructor" |} ]).
    reflexivity.
  - apply (reachesField _ _ _ _ _ _
             [mkField ["A"] (Ident "string") None] []); reflexivity.
Defined.

(** ** An embedded field of a qualified type *)

(** C10.  When [Run] comes to an embedded field (no name) whose type is a
    qualified identifier [X.Sel] and whose tag has a [required] key, the
    type is printed and then asserted to be an [*ast.Ident]: [Run] panics,
    no error is returned and nothing is generated for the package. *)
Theorem C10_embedded_selector_panics (w : World) dir opts pkgs pkg trace
  file ptr name fields st field stf tagValue v X Sel fieldTypeText :
  ParseDir w dir (fileFilter (applyOptions opts)) = inl pkgs ->
  ReachesPackage w (applyOptions opts) pkgs pkg trace ->
  ReachesStruct w pkg file ptr name fields st ->
  ReachesField w file fields (snd st) field stf ->
  Field_Names field = [] ->
  Field_Type field = SelectorExpr X Sel ->
  Field_Tag field = Some tagValue ->
  StructTag.Lookup (Unquote w) (strings.Trim tagValue BQ) "required" = Some v ->
  Fprint_expr w (SelectorExpr X Sel) = inl fieldTypeText ->
  Run w dir opts = (Panic (PanicTypeAssertion "*ast.Ident"), trace).
Proof.
  intros Hparse Hpkg Hst Hfield Hnames Htype Htag Hlook Hprint.
  eapply Run_Panic_at; eauto.
  eapply genPackage_Panic_at_struct; eauto.
  destruct st as [body imports].
  eapply genStruct_Panic_at_field; eauto.
  unfold scanField. destruct stf as [fis imps].
  rewrite Htag, Hlook, Htype, Hprint, Hnames. reflexivity.
Qed.

Lemma C10_embedded_selector_panics_witness :
  Run (quietWorld [fooEmbedsTime]) "." []
  = (Panic (PanicTypeAssertion "*ast.Ident"), []).
Proof.
  refine (C10_embedded_selector_panics (quietWorld [fooEmbedsTime]) "." []
            [fooEmbedsTime] fooEmbedsTime []
            (oneFile [mkImportSpec None (DQ ++ "time" ++ DQ)] marker "Foo"
               (StructType [embeddedTime]))
            false "Foo" [embeddedTime] ("", []) embeddedTime ([], [])
            (requiredTag "") "" (Ident "time") "Time" "time.Time"
            eq_refl (reaches_only_package _ _ _) _ _
            eq_refl eq_refl eq_refl eq_refl eq_refl).
  - apply (reaches_only_struct _ "p" _ [ {| Text := "//genconstructor" |} ]).
    reflexivity.
  - apply (reachesField _ _ _ _ _ _ [] []); reflexivity.
Defined.

(** ** The marker and its option *)

Lemma scanDoc_hasMarker (doc : list Comment) :
  fst (scanDoc doc) = existsb beginsWithMarker doc.
Proof.
  induction doc as [|c doc IH]; simpl.
  - reflexivity.
  - unfold beginsWithMarker at 1.
    destruct (strings.HasPrefix (strings.TrimSpace (Text c)) commentMarker);
      simpl; auto.
Qed.

(** [scanDoc] stops at the first line that begins with the marker. *)
Lemma scanDoc_first_marker (pre post : list Comment) (c : Comment) :
  (forall c', In c' pre -> beginsWithMarker c' = false) ->
  beginsWithMarker c = true ->
  scanDoc (pre ++ c :: post)%list
  = (true, hasPointerToken (strings.Fields (Text c))).
Proof.
  intros Hpre Hc. induction pre as [|c' pre IH]; simpl.
  - unfold beginsWithMarker in Hc. rewrite Hc. reflexivity.
  - pose proof (Hpre c' (or_introl eq_refl)) as Hc'.
    unfold beginsWithMarker in Hc'. rewrite Hc'.
    apply IH. intros x Hx. apply Hpre. right. exact Hx.
Qed.

Lemma hasPointerToken_In (l : list string) :
  hasPointerToken l = true <-> In pointerOpts l.
Proof.
  induction l as [|s l IH]; simpl.
  - split; [discriminate | intros []].
  - destruct (String.eqb_spec s pointerOpts) as [->|Hne].
    + split; auto.
    + rewrite IH. split; [auto | intros [H|H]; [contradiction | exact H]].
Qed.

Lemma renderConstructor_shape (name : string) (fis : list FieldInfo)
  (ptr : bool) :
  renderConstructor {| StructName := name; Fields := fis; Pointer := ptr |}
  = if ptr
    then pointerConstructor name (renderRange renderParam fis)
           (renderRange renderInit fis)
    else valueConstructor name (renderRange renderParam fis)
           (renderRange renderInit fis).
Proof.
  unfold renderConstructor, pointerConstructor, valueConstructor.
  destruct ptr; reflexivity.
Qed.

Lemma renderConstructor_not_empty (p : tmplParam) : renderConstructor p <> "".
Proof. unfold renderConstructor. simpl. discriminate. Qed.

Lemma append_not_self (a b : string) : b <> "" -> a ++ b <> a.
Proof.
  intros Hb H. apply Hb. apply (append_inv_head a).
  rewrite append_nil_r. exact H.
Qed.

(** What [genStruct] returns when it returns a value. *)
Lemma genStruct_Ok (w : World) file ptr name fields body imports st' :
  genStruct w file ptr name fields (body, imports) = Ok st' ->
  exists fis imports',
    foldM (scanField w file) fields ([], imports) = Ok (fis, imports')
    /\ st' = (body ++ renderConstructor {| StructName := name;
                                           Fields := fis;
                                           Pointer := ptr |}, imports').
Proof.
  unfold genStruct.
  destruct (foldM (scanField w file) fields ([], imports))
    as [[fis imports']|e|p]; simpl; try discriminate.
  unfold executeConstructor.
  destruct (Template_Parse w "constructor"); simpl; try discriminate.
  destruct (Execute_constructor w _); simpl; try discriminate.
  intros [= <-]. eauto.
Qed.

(** A structure that is processed never leaves [body] as it was. *)
Lemma genStruct_changes (w : World) file ptr name fields st :
  genStruct w file ptr name fields st <> Ok st.
Proof.
  destruct st as [body imports]. intros H.
  destruct (genStruct_Ok _ _ _ _ _ _ _ _ H) as (fis & imports' & _ & [= Hb _]).
  symmetry in Hb. revert Hb. apply append_not_self.
  apply renderConstructor_not_empty.
Qed.

Lemma genDecl_typeDecl (w : World) file st doc name ty :
  genDecl w file st (typeDecl (Some doc) name ty)
  = if existsb beginsWithMarker doc then
      match ty with
      | StructType fields =>
          genStruct w file (snd (scanDoc doc)) name fields st
      | NotStruct _ => Ok st
      end
    else Ok st.
Proof.
  unfold typeDecl, genDecl. rewrite <- scanDoc_hasMarker.
  destruct (scanDoc doc) as [[|] ptr]; simpl; [|reflexivity].
  destruct ty; simpl; [apply bind_Ok_r | reflexivity].
Qed.

(** C5, as stated, fails: the line [//genconstructorx] does not have the
    marker as its first word, and yet the structure below it gets its
    constructor. *)
Lemma C5_counterexample :
  existsb firstWordIsMarker (docLines markerWithSuffix) = false
  /\ exists txt,
       Run (quietWorld [onePackage "p" [] markerWithSuffix "Foo"
                          (StructType [nameField])]) "." []
       = (Ok tt, [NewWriter "p"; Written "p" txt])
       /\ strings.Contains txt "func NewFoo(" = true.
Proof.
  split; [reflexivity|]. eexists. split; reflexivity.
Qed.

(** C5, amended.  A type declaration is selected for constructor generation
    if and only if its doc comment has a line whose text, white space
    trimmed, begins with the marker [//genconstructor] (whatever follows
    it) and its declared type is a structure type: then the structure is
    processed, which generates its constructor or aborts [Run]; otherwise
    the declaration leaves what has been generated as it is. *)
Theorem C5_marker_prefix (w : World) (file : File)
  (st : string * list ImportSpec) (doc : option (list Comment))
  (name : string) (ty : TypeExpr) :
  ((exists c, In c (docLines doc) /\ beginsWithMarker c = true)
   /\ (exists fields, ty = StructType fields) ->
   (exists fields,
       ty = StructType fields
       /\ genDecl w file st (typeDecl doc name ty)
          = genStruct w file (snd (scanDoc (docLines doc))) name fields st)
   /\ genDecl w file st (typeDecl doc name ty) <> Ok st)
  /\ (~ ((exists c, In c (docLines doc) /\ beginsWithMarker c = true)
         /\ (exists fields, ty = StructType fields)) ->
      genDecl w file st (typeDecl doc name ty) = Ok st).
Proof.
  split.
  - intros [(c & Hin & Hc) (fields & ->)].
    destruct doc as [doc|]; [|destruct Hin]. simpl docLines in *.
    rewrite genDecl_typeDecl.
    replace (existsb beginsWithMarker doc) with true
      by (symmetry; apply existsb_exists; eauto).
    split; [eauto | apply genStruct_changes].
  - intros Hnot. destruct doc as [doc|]; [|reflexivity].
    rewrite genDecl_typeDecl.
    destruct (existsb beginsWithMarker doc) eqn:E; [|reflexivity].
    destruct ty as [fields|x]; [|reflexivity].
    exfalso. apply Hnot. apply existsb_exists in E. simpl. eauto.
Qed.

Lemma C5_marker_prefix_witness :
  (exists fields,
      StructType [nameField] = StructType fields
      /\ genDecl (quietWorld []) noFile ("", [])
           (typeDecl markerWithSuffix "Foo" (StructType [nameField]))
         = genStruct (quietWorld []) noFile
             (snd (scanDoc (docLines markerWithSuffix))) "Foo" fields ("", []))
  /\ genDecl (quietWorld []) noFile ("", [])
       (typeDecl markerWithSuffix "Foo" (StructType [nameField]))
     <> Ok ("", []).
Proof.
  apply (proj1 (C5_marker_prefix (quietWorld []) noFile ("", [])
                  markerWithSuffix "Foo" (StructType [nameField]))).
  split.
  - exists {| Text := "//genconstructorx" |}. split; [left|]; reflexivity.
  - exists [nameField]. reflexivity.
Defined.

(** C8.  Let [c] be the marker line of a declaration, the first line of
    its doc comment that begins with the marker.  When [-p] is one of the
    words of [c], the constructor of a structure of the declaration returns
    [*name] and its literal is [&name{...}]; when it is not, the
    constructor returns [name] and its literal is [name{...}]. *)
Theorem C8_pointer_option (w : World) (file : File) (body : string)
  (importPackages : list ImportSpec) (pre post : list Comment) (c : Comment)
  (name : string) (fields : list Field) body' importPackages' :
  (forall c', In c' pre -> beginsWithMarker c' = false) ->
  beginsWithMarker c = true ->
  genDecl w file (body, importPackages)
    (typeDecl (Some (pre ++ c :: post)%list) name (StructType fields))
  = Ok (body', importPackages') ->
  exists fieldInfos,
    foldM (scanField w file) fields ([], importPackages)
    = Ok (fieldInfos, importPackages')
    /\ (In pointerOpts (strings.Fields (Text c)) ->
        body' = body ++ pointerConstructor name
                          (renderRange renderParam fieldInfos)
                          (renderRange renderInit fieldInfos))
    /\ (~ In pointerOpts (strings.Fields (Text c)) ->
        body' = body ++ valueConstructor name
                          (renderRange renderParam fieldInfos)
                          (renderRange renderInit fieldInfos)).
Proof.
  intros Hpre Hc. rewrite genDecl_typeDecl.
  rewrite <- scanDoc_hasMarker, (scanDoc_first_marker _ _ _ Hpre Hc). simpl.
  intros H. apply genStruct_Ok in H.
  destruct H as (fis & imports' & Hscan & [= -> ->]).
  exists fis. split; [exact Hscan|].
  rewrite renderConstructor_shape.
  destruct (hasPointerToken (strings.Fields (Text c))) eqn:E.
  - split; [reflexivity|]. intros Hn. exfalso. apply Hn.
    apply hasPointerToken_In. exact E.
  - split; [|reflexivity]. intros Hin. apply hasPointerToken_In in Hin.
    congruence.
Qed.

Lemma C8_pointer_option_witness :
  exists fieldInfos,
    foldM (scanField (quietWorld []) noFile) [nameField] ([], [])
    = Ok (fieldInfos, [])
    /\ (In pointerOpts (strings.Fields ("//genconstructor" ++ NBSP ++ "-p")) ->
        "" ++ pointerConstructor "Foo" (indent 9 ++ "name string,")
                (indent 10 ++ "Name: name,")
        = "" ++ pointerConstructor "Foo"
                  (renderRange renderParam fieldInfos)
                  (renderRange renderInit fieldInfos))
    /\ (~ In pointerOpts (strings.Fields ("//genconstructor" ++ NBSP ++ "-p")) ->
        "" ++ pointerConstructor "Foo" (indent 9 ++ "name string,")
                (indent 10 ++ "Name: name,")
        = "" ++ valueConstructor "Foo"
                  (renderRange renderParam fieldInfos)
                  (renderRange renderInit fieldInfos)).
Proof.
  apply (C8_pointer_option (quietWorld []) noFile "" []
           [ {| Text := "// Foo is a thing." |} ] []
           {| Text := "//genconstructor" ++ NBSP ++ "-p" |} "Foo" [nameField]).
  - intros c' [<-|[]]. reflexivity.
  - reflexivity.
  - reflexivity.
Defined.

(** ** The imports of the field types *)

Lemma searchImports_find (imports : list ImportSpec) (p : string)
  (importPackages : list ImportSpec) :
  searchImports imports p importPackages
  = (importPackages
     ++ match find (fun imp => importMatches imp p) imports with
        | Some imp => [imp]
        | None => []
        end)%list.
Proof.
  induction imports as [|imp imports IH]; simpl.
  - rewrite app_nil_r. reflexivity.
  - destruct (importMatches imp p); [reflexivity | exact IH].
Qed.

Lemma resolveImports_tokens (imports : list ImportSpec) (txt : string)
  (importPackages : list ImportSpec) :
  resolveImports imports txt importPackages
  = (importPackages
     ++ flat_map (importOfToken imports)
          (strings.FieldsFunc txt isSeparator))%list.
Proof.
  unfold resolveImports.
  generalize (strings.FieldsFunc txt isSeparator) as tokens.
  intros tokens. revert importPackages.
  induction tokens as [|s tokens IH]; intros importPackages; simpl.
  - rewrite app_nil_r. reflexivity.
  - rewrite IH. unfold importOfToken at 2, referencedPackage.
    destruct (strings.SplitN2 s dot) as [|p [|q [|r l]]];
      rewrite ?app_nil_r; try reflexivity.
    rewrite searchImports_find, <- app_assoc. reflexivity.
Qed.

Lemma importMatches_spec (imp : ImportSpec) (p : string) :
  importMatches imp p = true
  <-> Import_Name imp = Some p
      \/ (Import_Name imp = None
          /\ path.Base (strings.Trim (Import_Path imp) DQ) = p).
Proof.
  unfold importMatches. destruct (Import_Name imp) as [n|].
  - rewrite String.eqb_eq. split.
    + intros ->. left. reflexivity.
    + intros [[= ->]|[[=] _]]. reflexivity.
  - rewrite String.eqb_eq. split.
    + intros H. right. split; [reflexivity | exact H].
    + intros [[=]|[_ H]]. exact H.
Qed.

(** ** The import block *)

Lemma groupImports_filter (pkgs g0 g1 : list ImportSpec) :
  groupImports pkgs g0 g1
  = ((g0 ++ filter isFirstGroup pkgs)%list,
     (g1 ++ filter (fun pkg => negb (isFirstGroup pkg)) pkgs)%list).
Proof.
  revert g0 g1; induction pkgs as [|pkg pkgs IH]; intros g0 g1; simpl.
  - rewrite !app_nil_r. reflexivity.
  - destruct (isFirstGroup pkg); simpl; rewrite IH, <- app_assoc;
      reflexivity.
Qed.

Lemma ltb_leb (a b : string) : String.ltb a b = true -> String.leb a b = true.
Proof.
  unfold String.ltb, String.leb. destruct (String.compare a b); congruence.
Qed.

Lemma not_ltb_leb (a b : string) :
  String.ltb a b = false -> String.leb b a = true.
Proof.
  unfold String.ltb, String.leb. rewrite (String.compare_antisym a b).
  destruct (String.compare b a); simpl; congruence.
Qed.

Lemma insertImport_perm (x : ImportSpec) (l : list ImportSpec) :
  Permutation (insertImport x l) (x :: l).
Proof.
  induction l as [|y l IH]; simpl.
  - apply Permutation_refl.
  - destruct (lessPath x y).
    + apply Permutation_refl.
    + apply perm_trans with (y :: x :: l).
      * apply perm_skip. exact IH.
      * apply perm_swap.
Qed.

Lemma sortImports_fold_perm (l acc : list ImportSpec) :
  Permutation (fold_left (fun sorted x => insertImport x sorted) l acc)
    (acc ++ l).
Proof.
  revert acc; induction l as [|x l IH]; intros acc; simpl.
  - rewrite app_nil_r. apply Permutation_refl.
  - apply perm_trans with (insertImport x acc ++ l)%list; [apply IH|].
    apply perm_trans with ((x :: acc) ++ l)%list.
    + apply Permutation_app_tail. apply insertImport_perm.
    + simpl. apply Permutation_middle.
Qed.

Lemma sortImports_perm (l : list ImportSpec) : Permutation (sortImports l) l.
Proof. exact (sortImports_fold_perm l []). Qed.

Lemma insertImport_HdRel (a x : ImportSpec) (l : list ImportSpec) :
  pathLe a x -> HdRel pathLe a l -> HdRel pathLe a (insertImport x l).
Proof.
  intros Hax Hl. destruct l as [|y l]; simpl.
  - constructor. exact Hax.
  - destruct (lessPath x y); constructor.
    + exact Hax.
    + inversion Hl; assumption.
Qed.

Lemma insertImport_sorted (x : ImportSpec) (l : list ImportSpec) :
  Sorted pathLe l -> Sorted pathLe (insertImport x l).
Proof.
  induction 1 as [|y l Hsorted IH Hhd]; simpl.
  - repeat constructor.
  - destruct (lessPath x y) eqn:E.
    + constructor; [constructor; assumption|].
      constructor. apply ltb_leb. exact E.
    + constructor; [exact IH|].
      apply insertImport_HdRel; [|exact Hhd].
      apply not_ltb_leb. exact E.
Qed.

Lemma sortImports_sorted (l : list ImportSpec) : Sorted pathLe (sortImports l).
Proof.
  unfold sortImports. generalize (@nil ImportSpec) (Sorted_nil pathLe).
  induction l as [|x l IH]; intros acc Hacc; simpl.
  - exact Hacc.
  - apply IH. apply insertImport_sorted. exact Hacc.
Qed.

Lemma printGroup_lines (w : World) (txt : ImportSpec -> string)
  (group : list ImportSpec) (b : string) :
  (forall pkg, In pkg group -> Fprint_import w pkg = inl (txt pkg)) ->
  printGroup w group b = Ok (b ++ importLines txt group).
Proof.
  revert b; induction group as [|pkg group IH]; intros b Hprint; simpl.
  - rewrite append_nil_r. reflexivity.
  - rewrite (Hprint pkg (or_introl eq_refl)).
    rewrite IH by (intros q Hq; apply Hprint; right; exact Hq).
    rewrite !append_assoc. reflexivity.
Qed.

(** C9.  The import block of a non-empty list of recorded imports is
    [import (], the lines of the first group, an empty line, the lines of
    the second group, an empty line, and the closing parenthesis.  The
    first group holds the imports whose quoted path has fewer than three
    parts between slashes and no dot, the second group all the others;
    each group is in the order of its quoted paths. *)
Theorem C9_fmtImports_groups (w : World) (pkgs : list ImportSpec)
  (txt : ImportSpec -> string) :
  pkgs <> [] ->
  (forall pkg, In pkg pkgs -> Fprint_import w pkg = inl (txt pkg)) ->
  exists g0 g1,
    Permutation g0 (filter isFirstGroup pkgs)
    /\ Permutation g1 (filter (fun pkg => negb (isFirstGroup pkg)) pkgs)
    /\ Sorted pathLe g0
    /\ Sorted pathLe g1
    /\ (forall pkg,
          isFirstGroup pkg = true
          <-> List.length (strings.Split (Import_Path pkg) slash) < 3
              /\ strings.Contains (Import_Path pkg) "." = false)
    /\ fmtImports w pkgs
       = Ok ("import (" ++ NL
             ++ importLines txt g0 ++ NL
             ++ importLines txt g1 ++ NL
             ++ NL ++ tabs 2 ++ ")").
Proof.
  intros Hne Hprint.
  exists (sortImports (filter isFirstGroup pkgs)),
         (sortImports (filter (fun pkg => negb (isFirstGroup pkg)) pkgs)).
  split; [apply sortImports_perm|].
  split; [apply sortImports_perm|].
  split; [apply sortImports_sorted|].
  split; [apply sortImports_sorted|].
  split.
  - intros pkg. unfold isFirstGroup.
    rewrite andb_true_iff, Nat.ltb_lt, negb_true_iff. reflexivity.
  - unfold fmtImports. destruct pkgs as [|pkg0 pkgs0]; [contradiction|].
    rewrite groupImports_filter. simpl app.
    set (g0 := filter isFirstGroup (pkg0 :: pkgs0)).
    set (g1 := filter (fun pkg => negb (isFirstGroup pkg)) (pkg0 :: pkgs0)).
    assert (H0 : forall pkg, In pkg (sortImports g0) ->
                             Fprint_import w pkg = inl (txt pkg)).
    { intros pkg Hin. apply Hprint.
      apply (Permutation_in _ (sortImports_perm g0)) in Hin.
      apply filter_In in Hin. tauto. }
    assert (H1 : forall pkg, In pkg (sortImports g1) ->
                             Fprint_import w pkg = inl (txt pkg)).
    { intros pkg Hin. apply Hprint.
      apply (Permutation_in _ (sortImports_perm g1)) in Hin.
      apply filter_In in Hin. tauto. }
    rewrite (printGroup_lines _ txt _ _ H0). simpl bind.
    rewrite (printGroup_lines _ txt _ _ H1). simpl bind.
    rewrite !append_assoc. reflexivity.
Qed.

Lemma C9_fmtImports_groups_witness :
  exists g0 g1,
    Permutation g0 (filter isFirstGroup [importURL; importTime; importErrors;
                                         importFmt])
    /\ Permutation g1 (filter (fun pkg => negb (isFirstGroup pkg))
                         [importURL; importTime; importErrors; importFmt])
    /\ Sorted pathLe g0
    /\ Sorted pathLe g1
    /\ (forall pkg,
          isFirstGroup pkg = true
          <-> List.length (strings.Split (Import_Path pkg) slash) < 3
              /\ strings.Contains (Import_Path pkg) "." = false)
    /\ fmtImports (quietWorld [])
         [importURL; importTime; importErrors; importFmt]
       = Ok ("import (" ++ NL
             ++ importLines printImport g0 ++ NL
             ++ importLines printImport g1 ++ NL
             ++ NL ++ tabs 2 ++ ")").
Proof.
  apply (C9_fmtImports_groups (quietWorld [])
           [importURL; importTime; importErrors; importFmt] printImport).
  - discriminate.
  - intros pkg _. reflexivity.
Defined.

(** ** The loop of [Lookup] never runs out of rounds *)

Lemma length_drop (n : nat) (s : string) :
  String.length (drop n s) = String.length s - n.
Proof.
  revert s; induction n as [|n IH]; intros s; simpl.
  - rewrite Nat.sub_0_r. reflexivity.
  - destruct s as [|c s]; simpl; auto.
Qed.

Lemma length_TrimLeftFunc (s : string) (f : ascii -> bool) :
  String.length (strings.TrimLeftFunc s f) <= String.length s.
Proof.
  induction s as [|c s IH]; simpl.
  - lia.
  - destruct (f c); simpl; lia.
Qed.

(** With at least [String.length tag] rounds the result is the same,
    however many rounds there are: the loop ends by itself. *)
Lemma lookupLoop_fuel (unquote : string -> option string) (key : string)
  (fuel1 fuel2 : nat) (tag : string) :
  String.length tag <= fuel1 -> String.length tag <= fuel2 ->
  StructTag.lookupLoop unquote fuel1 tag key
  = StructTag.lookupLoop unquote fuel2 tag key.
Proof.
  revert fuel2 tag; induction fuel1 as [|fuel1 IH]; intros fuel2 tag H1 H2.
  - destruct tag; [|simpl in H1; lia]. destruct fuel2; reflexivity.
  - destruct fuel2 as [|fuel2].
    + destruct tag; [|simpl in H2; lia]. reflexivity.
    + cbn [StructTag.lookupLoop].
      pose proof (length_TrimLeftFunc tag (Ascii.eqb " "%char)) as Htrim.
      set (tag1 := strings.TrimLeftFunc tag (Ascii.eqb " "%char)) in *.
      destruct (String.eqb tag1 ""); [reflexivity|].
      set (i := StructTag.scanName tag1).
      destruct (Nat.leb (String.length tag1) (i + 1)) eqn:Ei.
      { rewrite !orb_true_r. reflexivity. }
      destruct (_ || _ || _ || _); [reflexivity|].
      set (tag2 := drop (i + 1) tag1).
      set (j := StructTag.scanQuoted (drop 1 tag2) 1).
      destruct (Nat.leb (String.length tag2) j); [reflexivity|].
      destruct (String.eqb key (take i tag1)); [reflexivity|].
      apply Nat.leb_gt in Ei.
      assert (Hlen : String.length (drop (j + 1) tag2) < String.length tag).
      { rewrite length_drop. unfold tag2. rewrite length_drop. lia. }
      apply IH; lia.
Qed.

(** ** Examples *)

Example toLowerCamel_examples :
  toLowerCamel "" = ""
  /\ toLowerCamel "UserID" = "userID"
  /\ toLowerCamel "HTTPClient" = "hTTPClient"
  /\ toLowerCamel "name" = "name".
Proof. repeat split; reflexivity. Qed.

Example Lookup_examples :
  StructTag.Lookup unquotePlain ("json:" ++ DQ ++ "b" ++ DQ ++ " required:"
                                 ++ DQ ++ "7" ++ DQ) "required" = Some "7"
  /\ StructTag.Lookup unquotePlain ("required:" ++ DQ ++ DQ) "required"
     = Some ""
  /\ StructTag.Lookup unquotePlain ("json:" ++ DQ ++ "b" ++ DQ) "required"
     = None
  /\ StructTag.Lookup unquotePlain "required" "required" = None.
Proof. repeat split; reflexivity. Qed.

(** A field with an empty [required] value is a parameter. *)
Example empty_value_is_parameter :
  genStruct (quietWorld []) noFile false "Bar" [nameField] ("", [])
  = Ok (valueConstructor "Bar" (indent 9 ++ "name string,")
          (indent 10 ++ "Name: name,"), []).
Proof. reflexivity. Qed.

Example fmtImports_example :
  fmtImports (quietWorld []) [importURL; importTime; importErrors; importFmt]
  = Ok ("import (" ++ NL
        ++ DQ ++ "fmt" ++ DQ ++ NL
        ++ DQ ++ "time" ++ DQ ++ NL
        ++ NL
        ++ DQ ++ "github.com/pkg/errors" ++ DQ ++ NL
        ++ "url " ++ DQ ++ "github.com/x/y" ++ DQ ++ NL
        ++ NL
        ++ NL ++ tabs 2 ++ ")").
Proof. reflexivity. Qed.

(** A package without a marked structure leaves nothing on the sink. *)
Example unmarked_package_is_skipped :
  Run (quietWorld [onePackage "p" [] None "Foo" (StructType fieldsAB)]) "." []
  = (Ok tt, []).
Proof. reflexivity. Qed.

(** * Further properties of the code *)

(** ** Packages without a marked declaration *)

Lemma foldM_unchanged {A S : Type} (f : S -> A -> Outcome S) (l : list A)
  (s : S) :
  (forall a, In a l -> f s a = Ok s) -> foldM f l s = Ok s.
Proof.
  induction l as [|a l IH]; intros H; simpl.
  - reflexivity.
  - rewrite (H a (or_introl eq_refl)). simpl.
    apply IH. intros b Hb. apply H. right. exact Hb.
Qed.

Lemma genDecl_unmarked (w : World) file st d :
  unmarkedDecl d = true -> genDecl w file st d = Ok st.
Proof.
  destruct d as [tok doc specs| |]; try reflexivity.
  destruct tok; try reflexivity.
  destruct doc as [doc|]; try reflexivity. simpl.
  rewrite <- scanDoc_hasMarker.
  destruct (scanDoc doc) as [hasMarker ptr]. simpl.
  intros ->. reflexivity.
Qed.

Lemma filesIndex_In (m : list (string * File)) (k : string) (f : File) :
  filesIndex m k = Some f -> In f (map snd m).
Proof.
  induction m as [|[k' f'] m IH]; simpl.
  - discriminate.
  - destruct (String.eqb k k').
    + intros [= ->]. left. reflexivity.
    + intros H. right. apply IH. exact H.
Qed.

(** Every file that is visited is a file of the package. *)
Lemma sortedFileList_In (pkg : Package) (f : File) :
  In f (sortedFileList pkg) -> In f (map snd (Pkg_Files pkg)).
Proof.
  unfold sortedFileList. intros H. apply in_flat_map in H.
  destruct H as (name & _ & H).
  destruct (filesIndex (Pkg_Files pkg) name) as [f'|] eqn:E; [|destruct H].
  destruct H as [<-|[]]. eapply filesIndex_In. exact E.
Qed.

Lemma genPackage_unmarked (w : World) opt pkg :
  unmarkedPackage pkg = true -> genPackage w opt pkg = Ok None.
Proof.
  intros H. unfold genPackage.
  rewrite foldM_unchanged; [reflexivity|].
  intros f Hf. unfold genFile. apply foldM_unchanged.
  intros d Hd. apply genDecl_unmarked.
  apply sortedFileList_In in Hf. apply in_map_iff in Hf.
  destruct Hf as (kf & <- & Hkf).
  unfold unmarkedPackage in H.
  rewrite forallb_forall in H. specialize (H kf Hkf).
  rewrite forallb_forall in H. exact (H d Hd).
Qed.

Lemma runPackages_unmarked (w : World) opt pkgs trace :
  forallb unmarkedPackage pkgs = true ->
  runPackages w opt pkgs trace = (Ok tt, trace).
Proof.
  induction pkgs as [|pkg pkgs IH]; simpl; intros Hall.
  - reflexivity.
  - apply andb_true_iff in Hall. destruct Hall as [Hpkg Hall].
    rewrite (genPackage_unmarked _ _ _ Hpkg). apply IH. exact Hall.
Qed.

(** X1.  When no declaration of any file of any package is a type
    declaration whose doc comment has a marker line, [Run] returns [nil]
    and asks for no writer: nothing is generated, whatever the printer, the
    templates and the formatter would do. *)
Theorem X1_unmarked_packages_produce_nothing (w : World) dir opts pkgs :
  ParseDir w dir (fileFilter (applyOptions opts)) = inl pkgs ->
  forallb unmarkedPackage pkgs = true ->
  Run w dir opts = (Ok tt, []).
Proof.
  intros Hparse Hall. unfold Run. rewrite Hparse.
  apply runPackages_unmarked. exact Hall.
Qed.

Lemma X1_unmarked_packages_produce_nothing_witness :
  Run (failTemplateParse "out" "out: parse failed"
         (quietWorld [plainPackage; plainPackage])) "." []
  = (Ok tt, []).
Proof.
  apply (X1_unmarked_packages_produce_nothing _ "." []
           [plainPackage; plainPackage]); reflexivity.
Defined.

(** ** The fields of a constructor, in the order of their declaration *)

Lemma scanField_collected (w : World) file fis imps field fis' imps' :
  scanField w file (fis, imps) field = Ok (fis', imps') ->
  map nameAndConstant fis'
  = (map nameAndConstant fis ++ collected w field)%list.
Proof.
  unfold scanField, collected, requiredValue, declaredName.
  destruct (Field_Tag field) as [tagValue|];
    [|intros [= <- <-]; rewrite app_nil_r; reflexivity].
  destruct (StructTag.Lookup _ _ _) as [v|];
    [|intros [= <- <-]; rewrite app_nil_r; reflexivity].
  destruct (Fprint_expr w (Field_Type field)) as [txt|e]; [|discriminate].
  destruct (Field_Names field) as [|n ns]; simpl.
  - destruct (Field_Type field); simpl; try discriminate.
    intros [= <- <-]. rewrite map_app. reflexivity.
  - intros [= <- <-]. rewrite map_app. reflexivity.
Qed.

Lemma scanFields_collected (w : World) file fields fis imps fis' imps' :
  foldM (scanField w file) fields (fis, imps) = Ok (fis', imps') ->
  map nameAndConstant fis'
  = (map nameAndConstant fis ++ flat_map (collected w) fields)%list.
Proof.
  revert fis imps; induction fields as [|field fields IH]; intros fis imps;
    cbn [foldM].
  - intros [= <- <-]. rewrite app_nil_r. reflexivity.
  - destruct (scanField w file (fis, imps) field) as [[fis1 imps1]|e|p] eqn:E;
      cbn [bind]; try discriminate.
    intros H. rewrite (IH _ _ H), (scanField_collected _ _ _ _ _ _ _ E).
    rewrite <- app_assoc. reflexivity.
Qed.

(** X2.  When the fields of a structure go through, the fields that are
    collected are, in the order of the declaration, the fields whose tag
    has a [required] key, each with its first name (for an embedded field
    the name of its type) and the value of the key; a field without a tag
    or without the key is left out. *)
Theorem X2_fields_in_declaration_order (w : World) (file : File)
  (fields : list Field) importPackages fieldInfos importPackages' :
  foldM (scanField w file) fields ([], importPackages)
  = Ok (fieldInfos, importPackages') ->
  map nameAndConstant fieldInfos = flat_map (collected w) fields.
Proof. intros H. apply scanFields_collected in H. exact H. Qed.

Lemma X2_fields_in_declaration_order_witness :
  map nameAndConstant
    [ {| Type_ := "int"; Name := "B"; ConstValue := "7" |};
      {| Type_ := "string"; Name := "Name"; ConstValue := "" |} ]
  = flat_map (collected (quietWorld [])) (fieldsAB ++ [nameField])%list.
Proof.
  apply (X2_fields_in_declaration_order (quietWorld []) noFile
           (fieldsAB ++ [nameField])%list [] _ []).
  reflexivity.
Defined.

(** ** What is generated only grows, and imports come from the files *)

Lemma extends_refl (P : ImportSpec -> Prop) st : extends P st st.
Proof.
  split.
  - exists "". rewrite append_nil_r. reflexivity.
  - exists []. rewrite app_nil_r. split; [reflexivity | constructor].
Qed.

Lemma extends_trans (P : ImportSpec -> Prop) st1 st2 st3 :
  extends P st1 st2 -> extends P st2 st3 -> extends P st1 st3.
Proof.
  intros [[t1 Ht1] (e1 & He1 & HP1)] [[t2 Ht2] (e2 & He2 & HP2)]. split.
  - exists (t1 ++ t2). rewrite Ht2, Ht1, append_assoc. reflexivity.
  - exists (e1 ++ e2)%list. rewrite He2, He1, <- app_assoc.
    split; [reflexivity|]. apply Forall_app. split; assumption.
Qed.

Lemma extends_weaken (P Q : ImportSpec -> Prop) st st' :
  (forall i, P i -> Q i) -> extends P st st' -> extends Q st st'.
Proof.
  intros HPQ [Ht (e & He & HP)]. split; [exact Ht|].
  exists e. split; [exact He|]. eapply Forall_impl; eauto.
Qed.

Lemma foldM_extends {A : Type} (P : ImportSpec -> Prop)
  (f : string * list ImportSpec -> A -> Outcome (string * list ImportSpec))
  (l : list A) :
  (forall s a s', In a l -> f s a = Ok s' -> extends P s s') ->
  forall s s', foldM f l s = Ok s' -> extends P s s'.
Proof.
  induction l as [|a l IH]; intros Hf s s'; simpl.
  - intros [= <-]. apply extends_refl.
  - destruct (f s a) as [s1|e|p] eqn:E; simpl; try discriminate.
    intros H. apply extends_trans with s1.
    + apply (Hf s a s1); [left; reflexivity | exact E].
    + apply IH; [|exact H]. intros s0 b s0' Hb. apply Hf. right. exact Hb.
Qed.

Lemma importOfToken_In (imports : list ImportSpec) (token : string) :
  Forall (fun i => In i imports) (importOfToken imports token).
Proof.
  unfold importOfToken. destruct (referencedPackage token) as [p|];
    [|constructor].
  destruct (find _ imports) as [imp|] eqn:E; [|constructor].
  apply find_some in E. repeat constructor. tauto.
Qed.

Lemma scanField_imports (w : World) file fis imps field fis' imps' :
  scanField w file (fis, imps) field = Ok (fis', imps') ->
  exists extra,
    imps' = (imps ++ extra)%list
    /\ Forall (fun i => In i (File_Imports file)) extra.
Proof.
  unfold scanField.
  assert (Hsame : exists extra, imps = (imps ++ extra)%list
            /\ Forall (fun i => In i (File_Imports file)) extra).
  { exists []. rewrite app_nil_r. split; [reflexivity | constructor]. }
  destruct (Field_Tag field) as [tagValue|]; [|intros [= <- <-]; exact Hsame].
  destruct (StructTag.Lookup _ _ _) as [v|]; [|intros [= <- <-]; exact Hsame].
  destruct (Fprint_expr w (Field_Type field)) as [txt|e]; [|discriminate].
  destruct (match Field_Names field with
            | [] => match Field_Type field with
                    | Ident n => Ok n
                    | _ => Panic (PanicTypeAssertion "*ast.Ident")
                    end
            | n :: _ => Ok n
            end) as [n|e|p]; simpl; try discriminate.
  intros [= <- <-]. rewrite resolveImports_tokens. eexists.
  split; [reflexivity|].
  apply Forall_flat_map. apply Forall_forall. intros token _.
  apply importOfToken_In.
Qed.

Lemma scanFields_imports (w : World) file fields fis imps fis' imps' :
  foldM (scanField w file) fields (fis, imps) = Ok (fis', imps') ->
  exists extra,
    imps' = (imps ++ extra)%list
    /\ Forall (fun i => In i (File_Imports file)) extra.
Proof.
  revert fis imps; induction fields as [|field fields IH]; intros fis imps;
    cbn [foldM].
  - intros [= <- <-]. exists []. rewrite app_nil_r.
    split; [reflexivity | constructor].
  - destruct (scanField w file (fis, imps) field) as [[fis1 imps1]|e|p] eqn:E;
      cbn [bind]; try discriminate.
    intros H. apply IH in H. apply scanField_imports in E.
    destruct E as (e1 & -> & H1). destruct H as (e2 & -> & H2).
    exists (e1 ++ e2)%list. rewrite <- app_assoc.
    split; [reflexivity|]. apply Forall_app. split; assumption.
Qed.

Lemma genDecl_extends (w : World) file st d st' :
  genDecl w file st d = Ok st' ->
  extends (fun i => In i (File_Imports file)) st st'.
Proof.
  destruct d as [tok doc specs| |]; try (intros [= <-]; apply extends_refl).
  destruct tok; try (intros [= <-]; apply extends_refl).
  destruct doc as [doc|]; try (intros [= <-]; apply extends_refl).
  simpl. destruct (scanDoc doc) as [[|] ptr]; simpl;
    [|intros [= <-]; apply extends_refl].
  apply foldM_extends. clear st st'. intros [body imps] spec st' _.
  destruct spec as [i| |name [fields|x]]; simpl; try discriminate;
    [|intros [= <-]; apply extends_refl].
  intros H. apply genStruct_Ok in H.
  destruct H as (fis & imps' & Hscan & ->).
  apply scanFields_imports in Hscan. destruct Hscan as (extra & -> & Hextra).
  split; simpl; eauto.
Qed.

(** X4.  Over the files of a package the generated body and the recorded
    imports only grow: what a file adds comes after what was there, nothing
    is removed or reordered, and every import that is recorded is an import
    declaration of one of the files. *)
Theorem X4_generation_only_appends (w : World) (files : list File)
  (st st' : string * list ImportSpec) :
  foldM (genFile w) files st = Ok st' ->
  extends (fun i => exists file, In file files /\ In i (File_Imports file))
    st st'.
Proof.
  revert st st'. apply foldM_extends. intros s file s' Hfile H.
  unfold genFile in H.
  apply extends_weaken with (P := fun i => In i (File_Imports file)).
  - intros i Hi. exists file. split; assumption.
  - revert H. apply foldM_extends. intros s0 d s0' _. apply genDecl_extends.
Qed.

Lemma X4_generation_only_appends_witness :
  extends (fun i => exists file,
             In file [oneFile [importFmt; importTime] marker "Foo"
                        (StructType [deadlineField])]
             /\ In i (File_Imports file))
    ("", [])
    (valueConstructor "Foo" (indent 9 ++ "deadline map[string]*time.Time,")
       (indent 10 ++ "Deadline: deadline,"), [importTime]).
Proof.
  apply (X4_generation_only_appends (quietWorld [])
           [oneFile [importFmt; importTime] marker "Foo"
              (StructType [deadlineField])]).
  reflexivity.
Defined.

(** ** More on [toLowerCamel] *)

Lemma unicode_ToLower_not_upper (c : ascii) :
  unicode.IsUpper (unicode.ToLower c) = false.
Proof.
  unfold unicode.ToLower. destruct (unicode.IsUpper c) eqn:E; [|exact E].
  unfold unicode.IsUpper, unicode.inRange in *.
  apply andb_true_iff in E. destruct E as [E1 E2].
  apply Nat.leb_le in E1. apply Nat.leb_le in E2.
  rewrite nat_ascii_embedding by lia.
  apply andb_false_iff. right. apply Nat.leb_gt. lia.
Qed.

Lemma unicode_ToLower_idempotent (c : ascii) :
  unicode.ToLower (unicode.ToLower c) = unicode.ToLower c.
Proof.
  unfold unicode.ToLower at 1. rewrite unicode_ToLower_not_upper.
  reflexivity.
Qed.

Lemma toLowerCamel_String (c : ascii) (r : string) :
  toLowerCamel (String c r) = String (unicode.ToLower c) r.
Proof. rewrite toLowerCamel_first_byte. destruct r; reflexivity. Qed.

(** ** Failures of [fmtImports] *)

Lemma printGroup_outcome (w : World) (group : list ImportSpec) (b : string) :
  match printGroup w group b with
  | Ok _ => forall pkg, In pkg group -> exists txt, Fprint_import w pkg = inl txt
  | Err _ => False
  | Panic p =>
      exists pkg e,
        In pkg group /\ Fprint_import w pkg = inr e /\ p = PanicError e
  end.
Proof.
  revert b; induction group as [|pkg group IH]; intros b; simpl.
  - intros pkg [].
  - destruct (Fprint_import w pkg) as [txt|e] eqn:E.
    + specialize (IH (b ++ txt ++ NL)).
      destruct (printGroup w group (b ++ txt ++ NL)) as [r|e|p].
      * intros q [<-|Hq]; eauto.
      * exact IH.
      * destruct IH as (q & e & Hq & Hprint & ->). exists q, e. auto.
    + exists pkg, e. auto.
Qed.

Lemma In_groups (pkgs : list ImportSpec) (pkg : ImportSpec) :
  In pkg pkgs <->
  In pkg (sortImports (filter isFirstGroup pkgs))
  \/ In pkg (sortImports (filter (fun p => negb (isFirstGroup p)) pkgs)).
Proof.
  split.
  - intros H. destruct (isFirstGroup pkg) eqn:E; [left | right];
      apply (Permutation_in _ (Permutation_sym (sortImports_perm _)));
      apply filter_In; rewrite ?E; auto.
  - intros [H|H]; apply (Permutation_in _ (sortImports_perm _)) in H;
      apply filter_In in H; tauto.
Qed.

(** X7.  [fmtImports] never returns an error value, and it panics exactly
    when the printer fails on one of the imports it is given. *)
Theorem X7_fmtImports_panics_iff_print_fails (w : World)
  (pkgs : list ImportSpec) :
  (forall e, fmtImports w pkgs <> Err e)
  /\ ((exists p, fmtImports w pkgs = Panic p)
      <-> exists pkg e, In pkg pkgs /\ Fprint_import w pkg = inr e).
Proof.
  unfold fmtImports. destruct pkgs as [|pkg0 pkgs0].
  { split; [intros ?; discriminate|]. split.
    - intros [p H]. discriminate.
    - intros (pkg & e & [] & _). }
  set (pkgs := pkg0 :: pkgs0).
  rewrite groupImports_filter, !app_nil_l. cbv iota beta.
  set (g0 := sortImports (filter isFirstGroup pkgs)).
  set (g1 := sortImports (filter (fun p => negb (isFirstGroup p)) pkgs)).
  pose proof (printGroup_outcome w g0 "") as H0.
  destruct (printGroup w g0 "") as [b0|e0|p0]; cbn [bind].
  - pose proof (printGroup_outcome w g1 (b0 ++ NL)) as H1.
    destruct (printGroup w g1 (b0 ++ NL)) as [b1|e1|p1]; cbn [bind].
    + split; [intros ?; discriminate|]. split.
      * intros [p H]. discriminate.
      * intros (pkg & e & Hin & He). apply In_groups in Hin.
        destruct Hin as [Hin|Hin];
          [destruct (H0 pkg Hin) | destruct (H1 pkg Hin)]; congruence.
    + destruct H1.
    + split; [intros ?; discriminate|]. split.
      * intros _. destruct H1 as (pkg & e & Hin & He & _).
        exists pkg, e. split; [|exact He]. apply In_groups. right. exact Hin.
      * intros _. eauto.
  - destruct H0.
  - split; [intros ?; discriminate|]. split.
    + intros _. destruct H0 as (pkg & e & Hin & He & _).
      exists pkg, e. split; [|exact He]. apply In_groups. left. exact Hin.
    + intros _. eauto.
Qed.

(** ** Failures after the constructors are written *)

Lemma length_nonzero (s : string) :
  s <> "" -> Nat.eqb (String.length s) 0 = false.
Proof. destruct s; [contradiction | reflexivity]. Qed.

(** X8.  When the formatter rejects the text of a package, [Run] returns
    the formatter's error and no writer is asked for that package: the
    sink holds what the packages before it left. *)
Theorem X8_format_failure_is_returned (w : World) dir opts pkgs pkg trace
  body importPackages imports (e : error) :
  ParseDir w dir (fileFilter (applyOptions opts)) = inl pkgs ->
  ReachesPackage w (applyOptions opts) pkgs pkg trace ->
  foldM (genFile w) (sortedFileList pkg) ("", []) = Ok (body, importPackages) ->
  body <> "" ->
  Template_Parse w "out" = None ->
  fmtImports w importPackages = Ok imports ->
  Execute_out w (outData (applyOptions opts) pkg imports body) = None ->
  Source w (renderOut (outData (applyOptions opts) pkg imports body)) = inr e ->
  Run w dir opts = (Err e, trace).
Proof.
  intros Hparse Hpkg Hfiles Hbody Hout Himports Hexec Hsrc.
  eapply Run_Err_at; eauto. unfold genPackage. rewrite Hfiles. simpl.
  rewrite (length_nonzero _ Hbody), Hout, Himports. simpl.
  unfold outData in *. rewrite Hexec, Hsrc. reflexivity.
Qed.

Lemma X8_format_failure_is_returned_witness :
  Run (failSource "format: failed" (quietWorld [emptyFoo])) "." []
  = (Err "format: failed", []).
Proof.
  refine (X8_format_failure_is_returned
            (failSource "format: failed" (quietWorld [emptyFoo])) "." []
            [emptyFoo] emptyFoo [] _ [] "" "format: failed"
            eq_refl (reaches_only_package _ _ _) eq_refl _
            eq_refl eq_refl eq_refl eq_refl).
  discriminate.
Defined.

(** X9.  When the writer of a package fails, [Run] returns its error: the
    writer was asked for, nothing counts as written, and the packages after
    it are not processed. *)
Theorem X9_write_failure_is_returned (w : World) dir opts pkgs pkg trace
  str (e : error) :
  ParseDir w dir (fileFilter (applyOptions opts)) = inl pkgs ->
  ReachesPackage w (applyOptions opts) pkgs pkg trace ->
  genPackage w (applyOptions opts) pkg = Ok (Some str) ->
  Write w pkg str = Some e ->
  Run w dir opts = (Err e, (trace ++ [NewWriter (Pkg_Name pkg)])%list).
Proof.
  intros Hparse [pre post -> Hpre] Hgen Hwrite. unfold Run. rewrite Hparse.
  rewrite runPackages_app, Hpre. simpl. rewrite Hgen, Hwrite. reflexivity.
Qed.

Lemma X9_write_failure_is_returned_witness :
  exists txt,
    Run (failWrite "write: failed" (quietWorld [emptyFoo; barPackage])) "." []
    = (Err "write: failed", ([] ++ [NewWriter "p"])%list)
    /\ genPackage (quietWorld []) (applyOptions []) emptyFoo = Ok (Some txt).
Proof.
  eexists. split.
  - refine (X9_write_failure_is_returned
              (failWrite "write: failed" (quietWorld [emptyFoo; barPackage]))
              "." [] [emptyFoo; barPackage] emptyFoo [] _ "write: failed"
              eq_refl _ eq_refl eq_refl).
    apply (reachesPackage _ _ _ _ _ [] [barPackage]); reflexivity.
  - reflexivity.
Defined.

(** ** A run without failure *)

Lemma runPackages_all_ok (w : World) opt pkgs trace :
  (forall pkg, In pkg pkgs ->
     exists r, genPackage w opt pkg = Ok r
               /\ forall str, r = Some str -> Write w pkg str = None) ->
  runPackages w opt pkgs trace
  = (Ok tt, (trace ++ flat_map (packageEvents w opt) pkgs)%list).
Proof.
  revert trace; induction pkgs as [|pkg pkgs IH]; intros trace Hall; simpl.
  - rewrite app_nil_r. reflexivity.
  - destruct (Hall pkg (or_introl eq_refl)) as (r & Hgen & Hwrite).
    unfold packageEvents at 1. rewrite Hgen. destruct r as [str|].
    + rewrite (Hwrite str eq_refl).
      rewrite IH by (intros q Hq; apply Hall; right; exact Hq).
      rewrite <- !app_assoc. reflexivity.
    + apply IH. intros q Hq. apply Hall. right. exact Hq.
Qed.

(** X10.  When every package goes through and every write succeeds, [Run]
    returns [nil], and the sink sees, package after package in the order
    of the run, one writer and one write for each package that has a
    constructor, and nothing for the others. *)
Theorem X10_one_file_per_package (w : World) dir opts pkgs :
  ParseDir w dir (fileFilter (applyOptions opts)) = inl pkgs ->
  (forall pkg, In pkg pkgs ->
     exists r, genPackage w (applyOptions opts) pkg = Ok r
               /\ forall str, r = Some str -> Write w pkg str = None) ->
  Run w dir opts
  = (Ok tt, flat_map (packageEvents w (applyOptions opts)) pkgs).
Proof.
  intros Hparse Hall. unfold Run. rewrite Hparse.
  rewrite (runPackages_all_ok _ _ _ _ Hall). reflexivity.
Qed.

Lemma X10_one_file_per_package_witness :
  Run (quietWorld [barPackage; plainPackage; emptyFoo]) "." []
  = (Ok tt,
     flat_map (packageEvents (quietWorld [barPackage; plainPackage; emptyFoo])
                 (applyOptions []))
       [barPackage; plainPackage; emptyFoo]).
Proof.
  apply (X10_one_file_per_package
           (quietWorld [barPackage; plainPackage; emptyFoo]) "." []
           [barPackage; plainPackage; emptyFoo]).
  - reflexivity.
  - intros pkg [<-|[<-|[<-|[]]]]; eexists; (split; [reflexivity|]);
      intros; reflexivity.
Defined.

(** ** An embedded field that is not a plain identifier *)

(** X11.  When [Run] comes to an embedded field with a [required] key whose
    type is anything but a plain identifier (a pointer [*T], a qualified
    [pkg.T]), and the type can be printed, [Run] panics on the type
    assertion. *)
Theorem X11_embedded_non_identifier_panics (w : World) dir opts pkgs pkg
  trace file ptr name fields st field stf tagValue v fieldTypeText :
  ParseDir w dir (fileFilter (applyOptions opts)) = inl pkgs ->
  ReachesPackage w (applyOptions opts) pkgs pkg trace ->
  ReachesStruct w pkg file ptr name fields st ->
  ReachesField w file fields (snd st) field stf ->
  Field_Names field = [] ->
  (forall n, Field_Type field <> Ident n) ->
  Field_Tag field = Some tagValue ->
  StructTag.Lookup (Unquote w) (strings.Trim tagValue BQ) "required" = Some v ->
  Fprint_expr w (Field_Type field) = inl fieldTypeText ->
  Run w dir opts = (Panic (PanicTypeAssertion "*ast.Ident"), trace).
Proof.
  intros Hparse Hpkg Hst Hfield Hnames Htype Htag Hlook Hprint.
  eapply Run_Panic_at; eauto.
  eapply genPackage_Panic_at_struct; eauto.
  destruct st as [body imports].
  eapply genStruct_Panic_at_field; eauto.
  unfold scanField. destruct stf as [fis imps].
  rewrite Htag, Hlook, Hprint, Hnames.
  destruct (Field_Type field) as [n| | | | |]; try reflexivity.
  destruct (Htype n eq_refl).
Qed.

Lemma X11_embedded_non_identifier_panics_witness :
  Run (quietWorld [onePackage "p" [] marker "Foo"
                     (StructType [nameField; embeddedPointer])]) "." []
  = (Panic (PanicTypeAssertion "*ast.Ident"), []).
Proof.
  refine (X11_embedded_non_identifier_panics
            (quietWorld [onePackage "p" [] marker "Foo"
                           (StructType [nameField; embeddedPointer])])
            "." [] _ _ []
            (oneFile [] marker "Foo" (StructType [nameField; embeddedPointer]))
            false "Foo" [nameField; embeddedPointer] ("", []) embeddedPointer
            _ (requiredTag "") "" "*Base"
            eq_refl (reaches_only_package _ _ _) _ _
            eq_refl _ eq_refl eq_refl eq_refl).
  - apply (reaches_only_struct _ "p" _ [ {| Text := "//genconstructor" |} ]).
    reflexivity.
  - apply (reachesField _ _ _ _ _ _ [nameField] []); reflexivity.
  - discriminate.
Defined.

(** ** The order of strings, and why a sorted list is determined *)

Lemma compare_Lt_trans (a b c : string) :
  String.compare a b = Lt -> String.compare b c = Lt ->
  String.compare a c = Lt.
Proof.
  revert b c; induction a as [|x a IH]; intros [|y b] [|z c]; simpl;
    try congruence.
  unfold Ascii.compare.
  destruct (N.compare_spec (N_of_ascii x) (N_of_ascii y)) as [Exy|Lxy|Gxy];
    destruct (N.compare_spec (N_of_ascii y) (N_of_ascii z)) as [Eyz|Lyz|Gyz];
    destruct (N.compare_spec (N_of_ascii x) (N_of_ascii z)) as [Exz|Lxz|Gxz];
    intros H1 H2; try discriminate; try reflexivity; try (exfalso; lia).
  apply (IH b c); assumption.
Qed.

Lemma leb_refl (a : string) : String.leb a a = true.
Proof. destruct (String.leb_total a a); assumption. Qed.

Lemma leb_trans (a b c : string) :
  String.leb a b = true -> String.leb b c = true -> String.leb a c = true.
Proof.
  unfold String.leb.
  destruct (String.compare a b) eqn:Eab; try discriminate;
    destruct (String.compare b c) eqn:Ebc; try discriminate; intros _ _.
  - apply String.compare_eq_iff in Eab. subst. rewrite Ebc. reflexivity.
  - apply String.compare_eq_iff in Eab. subst. rewrite Ebc. reflexivity.
  - apply String.compare_eq_iff in Ebc. subst. rewrite Eab. reflexivity.
  - rewrite (compare_Lt_trans _ _ _ Eab Ebc). reflexivity.
Qed.

Section SortedByKey.

Variable A : Type.
Variable key : A -> string.

Lemma keyLe_head (a : A) (l : list A) :
  Sorted (keyLe key) (a :: l) -> forall b, In b (a :: l) -> (keyLe key) a b.
Proof.
  intros Hs b [<-|Hb].
  - apply leb_refl.
  - apply Sorted_StronglySorted in Hs.
    + apply StronglySorted_inv in Hs. destruct Hs as [_ Hall].
      exact (proj1 (Forall_forall _ _) Hall b Hb).
    + intros x y z. apply leb_trans.
Qed.

Lemma NoDup_key_inj (l : list A) (a b : A) :
  NoDup (map key l) -> In a l -> In b l -> key a = key b -> a = b.
Proof.
  induction l as [|x l IH]; simpl; intros Hnd Ha Hb Hk; [destruct Ha|].
  inversion Hnd as [|k ks Hnotin Hnd']; subst.
  destruct Ha as [<-|Ha], Hb as [<-|Hb]; auto.
  - exfalso. apply Hnotin. rewrite Hk. apply in_map. exact Hb.
  - exfalso. apply Hnotin. rewrite <- Hk. apply in_map. exact Ha.
Qed.

(** With keys that are all different, a list has one sorted order. *)
Lemma sorted_perm_unique (l1 l2 : list A) :
  Sorted (keyLe key) l1 -> Sorted (keyLe key) l2 -> Permutation l1 l2 ->
  NoDup (map key l1) -> l1 = l2.
Proof.
  revert l2; induction l1 as [|a l1 IH]; intros l2 S1 S2 P Hnd.
  - apply Permutation_nil in P. subst. reflexivity.
  - destruct l2 as [|b l2].
    { apply Permutation_sym, Permutation_nil in P. discriminate. }
    assert (Hab : a = b).
    { assert (Hb : In b (a :: l1))
        by (apply (Permutation_in _ (Permutation_sym P)); left; reflexivity).
      assert (Ha : In a (b :: l2))
        by (apply (Permutation_in _ P); left; reflexivity).
      apply (NoDup_key_inj (a :: l1)); auto; [left; reflexivity|].
      apply String.leb_antisym.
      - exact (keyLe_head _ _ S1 b Hb).
      - exact (keyLe_head _ _ S2 a Ha). }
    subst b. f_equal. apply IH.
    + apply Sorted_inv in S1. tauto.
    + apply Sorted_inv in S2. tauto.
    + apply Permutation_cons_inv in P. exact P.
    + inversion Hnd; assumption.
Qed.

End SortedByKey.





(** ** The order of the files does not depend on the order of the map *)







(** ** The import block does not depend on the order of the records *)

Lemma Permutation_filter_imports (f : ImportSpec -> bool) l l' :
  Permutation l l' -> Permutation (filter f l) (filter f l').
Proof.
  induction 1 as [|x l l' _ IH|x y l|l l' l'' _ IH1 _ IH2]; simpl.
  - apply perm_nil.
  - destruct (f x); [apply perm_skip|]; exact IH.
  - destruct (f x), (f y); try apply Permutation_refl. apply perm_swap.
  - eapply perm_trans; eassumption.
Qed.

Lemma NoDup_map_filter (f : ImportSpec -> bool) (l : list ImportSpec) :
  NoDup (map Import_Path l) -> NoDup (map Import_Path (filter f l)).
Proof.
  induction l as [|x l IH]; simpl; intros Hnd; [constructor|].
  inversion Hnd as [|k ks Hnotin Hnd']; subst.
  destruct (f x); simpl; [|auto].
  constructor; [|auto].
  intros Hin. apply Hnotin. apply in_map_iff in Hin.
  destruct Hin as (y & Hy & Hin). apply filter_In in Hin.
  rewrite <- Hy. apply in_map. tauto.
Qed.

Lemma sortImports_filter_perm (f : ImportSpec -> bool) l l' :
  Permutation l l' -> NoDup (map Import_Path l) ->
  sortImports (filter f l) = sortImports (filter f l').
Proof.
  intros P Hnd. apply (sorted_perm_unique ImportSpec Import_Path).
  - apply sortImports_sorted.
  - apply sortImports_sorted.
  - apply perm_trans with (filter f l); [apply sortImports_perm|].
    apply perm_trans with (filter f l').
    + apply Permutation_filter_imports. exact P.
    + apply Permutation_sym, sortImports_perm.
  - apply (Permutation_NoDup
             (Permutation_map Import_Path
                (Permutation_sym (sortImports_perm (filter f l))))).
    apply NoDup_map_filter. exact Hnd.
Qed.

(** X13.  When no two recorded imports have the same path, the import
    block depends only on which imports were recorded, not on the order in
    which the fields recorded them. *)
Theorem X13_fmtImports_order_independent (w : World)
  (pkgs pkgs' : list ImportSpec) :
  Permutation pkgs pkgs' ->
  NoDup (map Import_Path pkgs) ->
  fmtImports w pkgs = fmtImports w pkgs'.
Proof.
  intros P Hnd. unfold fmtImports.
  destruct pkgs as [|p0 l0].
  { apply Permutation_nil in P. subst. reflexivity. }
  destruct pkgs' as [|p0' l0'].
  { apply Permutation_sym, Permutation_nil in P. discriminate. }
  rewrite !groupImports_filter, !app_nil_l. cbv iota beta.
  rewrite (sortImports_filter_perm isFirstGroup _ _ P Hnd).
  rewrite (sortImports_filter_perm (fun pkg => negb (isFirstGroup pkg))
             _ _ P Hnd).
  reflexivity.
Qed.

Lemma X13_fmtImports_order_independent_witness :
  fmtImports (quietWorld []) importsABC = fmtImports (quietWorld []) importsCBA.
Proof.
  apply X13_fmtImports_order_independent.
  - exact (Permutation_rev importsABC).
  - simpl. repeat constructor; simpl; intuition discriminate.
Defined.

(** ** Field types without a qualified name *)

Lemma IndexFunc_app_None (a b : string) (f : ascii -> bool) :
  strings.IndexFunc a f = None -> strings.IndexFunc b f = None ->
  strings.IndexFunc (a ++ b) f = None.
Proof.
  induction a as [|c a IH]; simpl; intros Ha Hb.
  - exact Hb.
  - destruct (f c); [discriminate|].
    destruct (strings.IndexFunc a f); [discriminate|].
    rewrite IH; auto.
Qed.

Lemma fieldsLoop_noDot (f : ascii -> bool) (s cur : string) :
  noDot s -> noDot cur -> Forall noDot (strings.fieldsLoop f s cur).
Proof.
  unfold noDot, strings.IndexByte.
  revert cur; induction s as [|c s IH]; intros cur Hs Hcur;
    cbn [strings.fieldsLoop].
  - destruct cur; repeat constructor. exact Hcur.
  - cbn [strings.IndexFunc] in Hs.
    destruct (Ascii.eqb dot c) eqn:Ec; [discriminate Hs|].
    destruct (strings.IndexFunc s (Ascii.eqb dot)) eqn:Es; [discriminate Hs|].
    destruct (f c).
    + destruct cur.
      * apply IH; reflexivity.
      * constructor; [exact Hcur|]. apply IH; reflexivity.
    + apply IH; [reflexivity|].
      apply IndexFunc_app_None; [exact Hcur|].
      cbn [strings.IndexFunc]. rewrite Ec. reflexivity.
Qed.

Lemma importOfToken_noDot (imports : list ImportSpec) (token : string) :
  noDot token -> importOfToken imports token = [].
Proof.
  unfold noDot, importOfToken, referencedPackage, strings.SplitN2.
  intros ->. reflexivity.
Qed.

Lemma resolveImports_noDot (imports : list ImportSpec) (txt : string) acc :
  noDot txt -> resolveImports imports txt acc = acc.
Proof.
  intros H. rewrite resolveImports_tokens.
  assert (Hall : Forall noDot (strings.FieldsFunc txt isSeparator))
    by (apply fieldsLoop_noDot; [exact H | reflexivity]).
  induction Hall as [|t ts Ht _ IH]; simpl.
  - apply app_nil_r.
  - rewrite (importOfToken_noDot _ _ Ht). exact IH.
Qed.

(** X14.  A field whose printed type has no dot (a predeclared type, a type
    of the package itself) records no import, whatever the imports of the
    file are. *)
Theorem X14_unqualified_type_records_no_import (w : World) (file : File)
  fieldInfos importPackages (field : Field) fieldTypeText
  fieldInfos' importPackages' :
  Fprint_expr w (Field_Type field) = inl fieldTypeText ->
  noDot fieldTypeText ->
  scanField w file (fieldInfos, importPackages) field
  = Ok (fieldInfos', importPackages') ->
  importPackages' = importPackages.
Proof.
  intros Hprint Hdot. unfold scanField. rewrite Hprint.
  destruct (Field_Tag field); [|intros [= _ <-]; reflexivity].
  destruct (StructTag.Lookup _ _ _); [|intros [= _ <-]; reflexivity].
  destruct (match Field_Names field with
            | [] => match Field_Type field with
                    | Ident n => Ok n
                    | _ => Panic (PanicTypeAssertion "*ast.Ident")
                    end
            | n :: _ => Ok n
            end); simpl; try discriminate.
  intros [= _ <-]. apply resolveImports_noDot. exact Hdot.
Qed.

Lemma X14_unqualified_type_records_no_import_witness :
  [importTime] = [importTime].
Proof.
  apply (X14_unqualified_type_records_no_import (quietWorld [])
           (oneFile [importFmt; importTime] marker "Foo"
              (StructType [nameField]))
           [] [importTime] nameField "string"
           [ {| Type_ := "string"; Name := "Name"; ConstValue := "" |} ]
           [importTime]); reflexivity.
Defined.

(** ** From the tag to the constant *)

Lemma TrimRightFunc_stop (a : string) (c : ascii) (f : ascii -> bool) :
  f c = false ->
  strings.TrimRightFunc (a ++ String c "") f = a ++ String c "".
Proof.
  intros Hc. induction a as [|x a IH]; simpl.
  - rewrite Hc. reflexivity.
  - rewrite IH. destruct (a ++ String c "") eqn:E; [|reflexivity].
    destruct a; discriminate.
Qed.

Lemma TrimRightFunc_one (a : string) (c d : ascii) (f : ascii -> bool) :
  f c = false -> f d = true ->
  strings.TrimRightFunc (a ++ String c (String d "")) f = a ++ String c "".
Proof.
  intros Hc Hd. induction a as [|x a IH]; simpl.
  - rewrite Hd, Hc. reflexivity.
  - rewrite IH. destruct (a ++ String c "") eqn:E; [|reflexivity].
    destruct a; discriminate.
Qed.

(** The tag literal without its back quotes. *)
Lemma Trim_requiredTag (v : string) :
  strings.Trim (requiredTag v) BQ = "required:" ++ DQ ++ v ++ DQ.
Proof.
  unfold strings.Trim, strings.TrimFunc.
  change (strings.TrimLeftFunc (requiredTag v) (strings.inCutset BQ))
    with ("required:" ++ DQ ++ v ++ DQ ++ BQ).
  assert (E : "required:" ++ DQ ++ v ++ DQ ++ BQ
              = (("required:" ++ DQ) ++ v) ++ DQ ++ BQ)
    by (rewrite !append_assoc; reflexivity).
  rewrite E.
  change (DQ ++ BQ) with (String "034"%char (String "096"%char "")).
  rewrite TrimRightFunc_one by reflexivity.
  rewrite !append_assoc. reflexivity.
Qed.

Lemma scanQuoted_plain (v : string) (i : nat) :
  plainValue v = true ->
  StructTag.scanQuoted (v ++ DQ) i = i + String.length v.
Proof.
  revert i; induction v as [|c v IH]; intros i; simpl.
  - intros _. lia.
  - intros H. apply andb_true_iff in H. destruct H as [H Hv].
    apply andb_true_iff in H. destruct H as [Hq Hb].
    apply negb_true_iff in Hq. apply negb_true_iff in Hb.
    rewrite Hq, Hb, (IH _ Hv). lia.
Qed.

Lemma take_append_length (a b : string) : take (String.length a) (a ++ b) = a.
Proof. induction a as [|c a IH]; simpl; [destruct b|]; congruence. Qed.

Lemma take_all (a : string) : take (String.length a) a = a.
Proof. induction a as [|c a IH]; simpl; congruence. Qed.

Lemma Lookup_required (unquote : string -> option string) (v : string) :
  plainValue v = true ->
  StructTag.Lookup unquote ("required:" ++ DQ ++ v ++ DQ) "required"
  = unquote (DQ ++ v ++ DQ).
Proof.
  intros Hv. unfold StructTag.Lookup.
  change (String.length ("required:" ++ DQ ++ v ++ DQ))
    with (S (9 + String.length (v ++ DQ))).
  cbn [StructTag.lookupLoop].
  change (strings.TrimLeftFunc ("required:" ++ DQ ++ v ++ DQ)
            (Ascii.eqb " "%char))
    with ("required:" ++ DQ ++ v ++ DQ).
  change (StructTag.scanName ("required:" ++ DQ ++ v ++ DQ)) with 8.
  change (String.eqb ("required:" ++ DQ ++ v ++ DQ) "") with false.
  cbv iota.
  change (take 8 ("required:" ++ DQ ++ v ++ DQ)) with "required".
  change (drop (8 + 1) ("required:" ++ DQ ++ v ++ DQ)) with (DQ ++ v ++ DQ).
  change (drop 1 (DQ ++ v ++ DQ)) with (v ++ DQ).
  rewrite (scanQuoted_plain v 1 Hv).
  replace (Nat.leb (String.length (DQ ++ v ++ DQ)) (1 + String.length v))
    with false.
  2:{ symmetry. apply Nat.leb_gt. simpl. rewrite length_append. simpl. lia. }
  replace (1 + String.length v + 1) with (String.length (DQ ++ v ++ DQ)).
  2:{ simpl. rewrite length_append. simpl. lia. }
  rewrite take_all. simpl. reflexivity.
Qed.

(** X15.  A named field tagged [`required:"v"`], where [v] has neither a
    double quote nor a backslash, is collected with the unquoted [v] as
    its constant, with its first name and with the printed text of its
    type. *)
Theorem X15_plain_tag_value_is_the_constant (w : World) (file : File)
  fieldInfos importPackages (name : string) (names : list string)
  (ty : Expr) (v v' fieldTypeText : string) :
  plainValue v = true ->
  Unquote w (DQ ++ v ++ DQ) = Some v' ->
  Fprint_expr w ty = inl fieldTypeText ->
  scanField w file (fieldInfos, importPackages)
    (mkField (name :: names) ty (Some (requiredTag v)))
  = Ok ((fieldInfos ++ [ {| Type_ := fieldTypeText;
                            Name := name;
                            ConstValue := v' |} ])%list,
        resolveImports (File_Imports file) fieldTypeText importPackages).
Proof.
  intros Hv Hunq Hprint. unfold scanField.
  cbn [Field_Tag Field_Type Field_Names].
  rewrite Trim_requiredTag, (Lookup_required _ _ Hv), Hunq, Hprint.
  reflexivity.
Qed.

Lemma X15_plain_tag_value_is_the_constant_witness :
  scanField (quietWorld []) noFile ([], [])
    (mkField ["Created"; "Updated"] (SelectorExpr (Ident "time") "Time")
       (Some (requiredTag "time.Now()")))
  = Ok (([] ++ [ {| Type_ := "time.Time";
                    Name := "Created";
                    ConstValue := "time.Now()" |} ])%list,
        resolveImports (File_Imports noFile) "time.Time" []).
Proof.
  apply (X15_plain_tag_value_is_the_constant (quietWorld []) noFile [] []
           "Created" ["Updated"] (SelectorExpr (Ident "time") "Time")
           "time.Now()" "time.Now()" "time.Time"); reflexivity.
Defined.

(** ** The command: which files are read, which file is written *)

Lemma take_drop (n : nat) (s : string) : take n s ++ drop n s = s.
Proof.
  revert s; induction n as [|n IH]; intros s; simpl.
  - reflexivity.
  - destruct s as [|c s]; simpl; [reflexivity|]. rewrite IH. reflexivity.
Qed.

Lemma drop_append (a b : string) (n : nat) :
  drop (String.length a + n) (a ++ b) = drop n b.
Proof. induction a as [|c a IH]; simpl; auto. Qed.

Lemma HasSuffix_spec (s suffix : string) :
  strings.HasSuffix s suffix = true <-> exists stem, s = stem ++ suffix.
Proof.
  unfold strings.HasSuffix. rewrite andb_true_iff, Nat.leb_le, String.eqb_eq.
  split.
  - intros [_ H]. exists (take (String.length s - String.length suffix) s).
    pose proof (take_drop (String.length s - String.length suffix) s) as E.
    rewrite H in E. symmetry. exact E.
  - intros [stem ->]. rewrite length_append. split; [lia|].
    replace (String.length stem + String.length suffix - String.length suffix)
      with (String.length stem + 0) by lia.
    apply drop_append.
Qed.

(** X16.  The file filter of the command leaves out exactly the files whose
    name ends in [_test.go]; the file that the command writes for a
    package, [<package>_constructor_gen.go], is not left out, so the next
    run reads it again with the other files of the directory. *)
Theorem X16_generated_file_passes_the_filter :
  (forall name,
      main.testFileFilter name = false
      <-> exists stem, name = stem ++ "_test.go")
  /\ (forall pkgName,
        main.testFileFilter (main.dstFileName pkgName) = true).
Proof.
  split.
  - intros name. unfold main.testFileFilter.
    rewrite negb_false_iff. apply HasSuffix_spec.
  - intros pkgName. unfold main.testFileFilter, main.dstFileName.
    apply negb_true_iff. unfold strings.HasSuffix.
    apply andb_false_iff. right. rewrite length_append.
    replace (String.length pkgName + String.length "_constructor_gen.go"
             - String.length "_test.go")
      with (String.length pkgName + 11) by (simpl; lia).
    rewrite drop_append. reflexivity.
Qed.

(** ** The options *)

Lemma applyOptions_snoc (opts : list Option) (opt : Option) :
  applyOptions (opts ++ [opt])%list = opt (applyOptions opts).
Proof. unfold applyOptions. rewrite fold_left_app. reflexivity. Qed.

(** X17.  Each option sets its own setting and leaves the other as it is:
    after any options, [WithGeneratorName n] makes [n] the generator name
    and keeps the file filter, [WithFileFilter f] makes [f] the file
    filter and keeps the generator name; without options the name is
    [go-genconstructor] and there is no filter. *)
Theorem X17_options_are_independent (opts : list Option) (n : string)
  (f : string -> bool) :
  applyOptions [] = {| fileFilter := None;
                       generatorName := "go-genconstructor" |}
  /\ generatorName (applyOptions (opts ++ [WithGeneratorName n])%list) = n
  /\ fileFilter (applyOptions (opts ++ [WithGeneratorName n])%list)
     = fileFilter (applyOptions opts)
  /\ fileFilter (applyOptions (opts ++ [WithFileFilter f])%list) = Some f
  /\ generatorName (applyOptions (opts ++ [WithFileFilter f])%list)
     = generatorName (applyOptions opts)
  /\ applyOptions (opts ++ [WithGeneratorName n; WithFileFilter f])%list
     = applyOptions (opts ++ [WithFileFilter f; WithGeneratorName n])%list.
Proof.
  repeat split; try (rewrite applyOptions_snoc; reflexivity).
  change [WithGeneratorName n; WithFileFilter f]
    with ([WithGeneratorName n] ++ [WithFileFilter f])%list.
  change [WithFileFilter f; WithGeneratorName n]
    with ([WithFileFilter f] ++ [WithGeneratorName n])%list.
  rewrite !app_assoc, !applyOptions_snoc. reflexivity.
Qed.

(** ** One record per reference: imports are not deduplicated *)

Lemma scanField_new (w : World) file fis imps field fis' imps' :
  scanField w file (fis, imps) field = Ok (fis', imps') ->
  exists new,
    fis' = (fis ++ new)%list
    /\ imps' = (imps ++ flat_map (importsOfField file) new)%list.
Proof.
  unfold scanField.
  assert (Hsame : exists new, fis = (fis ++ new)%list
            /\ imps = (imps ++ flat_map (importsOfField file) new)%list).
  { exists []. simpl. rewrite !app_nil_r. split; reflexivity. }
  destruct (Field_Tag field) as [tagValue|]; [|intros [= <- <-]; exact Hsame].
  destruct (StructTag.Lookup _ _ _) as [v|]; [|intros [= <- <-]; exact Hsame].
  destruct (Fprint_expr w (Field_Type field)) as [txt|e]; [|discriminate].
  destruct (match Field_Names field with
            | [] => match Field_Type field with
                    | Ident n => Ok n
                    | _ => Panic (PanicTypeAssertion "*ast.Ident")
                    end
            | n :: _ => Ok n
            end) as [n|e|p]; simpl; try discriminate.
  intros [= <- <-]. rewrite resolveImports_tokens. eexists.
  split; [reflexivity|]. simpl. rewrite app_nil_r. reflexivity.
Qed.

(** ** What a field with a [required] key puts into the constructor *)

Lemma foldM_app_Ok {A S : Type} (f : S -> A -> Outcome S) l1 a l2 s s' :
  foldM f (l1 ++ a :: l2)%list s = Ok s' ->
  exists s1 s2,
    foldM f l1 s = Ok s1 /\ f s1 a = Ok s2 /\ foldM f l2 s2 = Ok s'.
Proof.
  rewrite foldM_app.
  destruct (foldM f l1 s) as [s1|e|p]; cbn [bind foldM]; try discriminate.
  destruct (f s1 a) as [s2|e|p] eqn:E; cbn [bind]; try discriminate.
  intros H. exists s1, s2. auto.
Qed.

Lemma scanField_collects (w : World) file fis imps field tagValue v st' :
  Field_Tag field = Some tagValue ->
  StructTag.Lookup (Unquote w) (strings.Trim tagValue BQ) "required" = Some v ->
  scanField w file (fis, imps) field = Ok st' ->
  exists fi,
    fst st' = (fis ++ [fi])%list
    /\ ConstValue fi = v
    /\ Name fi = declaredName field
    /\ Fprint_expr w (Field_Type field) = inl (Type_ fi).
Proof.
  intros Htag Hlook. unfold scanField, declaredName. rewrite Htag, Hlook.
  destruct (Fprint_expr w (Field_Type field)) as [txt|e]; [|discriminate].
  destruct (Field_Names field) as [|n ns]; simpl.
  - destruct (Field_Type field); simpl; try discriminate.
    intros [= <-]. eexists. repeat split.
  - intros [= <-]. eexists. repeat split.
Qed.

Lemma scanField_prefix (w : World) file fis imps field fis' imps' :
  scanField w file (fis, imps) field = Ok (fis', imps') ->
  exists new, fis' = (fis ++ new)%list.
Proof.
  unfold scanField.
  destruct (Field_Tag field) as [tagValue|];
    [|intros [= <- _]; exists []; rewrite app_nil_r; reflexivity].
  destruct (StructTag.Lookup _ _ _) as [v|];
    [|intros [= <- _]; exists []; rewrite app_nil_r; reflexivity].
  destruct (Fprint_expr w (Field_Type field)) as [txt|e]; [|discriminate].
  destruct (match Field_Names field with
            | [] => match Field_Type field with
                    | Ident n => Ok n
                    | _ => Panic (PanicTypeAssertion "*ast.Ident")
                    end
            | n :: _ => Ok n
            end) as [n|e|p]; simpl; try discriminate.
  intros [= <- _]. eexists. reflexivity.
Qed.

Lemma scanFields_prefix (w : World) file fields fis imps fis' imps' :
  foldM (scanField w file) fields (fis, imps) = Ok (fis', imps') ->
  exists new, fis' = (fis ++ new)%list.
Proof.
  revert fis imps; induction fields as [|field fields IH]; intros fis imps;
    cbn [foldM].
  - intros [= <- _]. exists []. rewrite app_nil_r. reflexivity.
  - destruct (scanField w file (fis, imps) field) as [[fis1 imps1]|e|p] eqn:E;
      cbn [bind]; try discriminate.
    intros H. apply IH in H. apply scanField_prefix in E.
    destruct E as (n1 & ->). destruct H as (n2 & ->).
    exists (n1 ++ n2)%list. rewrite app_assoc. reflexivity.
Qed.

(** The text that [genStruct] appends, when it appends one. *)
Lemma genStruct_text (w : World) file ptr name fields body imports body'
  imports' :
  genStruct w file ptr name fields (body, imports) = Ok (body', imports') ->
  exists fis,
    foldM (scanField w file) fields ([], imports) = Ok (fis, imports')
    /\ body' = body ++ constructorText ptr name
                         (renderRange renderParam fis)
                         (renderRange renderInit fis).
Proof.
  intros H. apply genStruct_Ok in H.
  destruct H as (fis & imps & Hscan & [= -> ->]).
  exists fis. split; [exact Hscan|].
  rewrite renderConstructor_shape. unfold constructorText. reflexivity.
Qed.

(** C3.  Take a structure that is generated, and one of its fields whose
    tag has a [required] key with the value [v].  The field is collected
    under its name, with the printed text of its type and with [v] as its
    constant, and the text of the constructor is as follows.  When [v] is
    not empty, the field adds nothing to the parameter list (the
    parameters of the fields before it are followed at once by those of
    the fields after it), and its initializer is [Name: v], the value as it
    stands.  When [v] is empty, the field adds the parameter made of its
    name in lower camel case and its type, and its initializer is that
    parameter. *)
Theorem C3_required_value (w : World) (file : File) (ptr : bool)
  (name : string) (fl1 : list Field) (field : Field) (fl2 : list Field)
  (body : string) (importPackages : list ImportSpec) (tagValue v : string)
  body' importPackages' :
  Field_Tag field = Some tagValue ->
  StructTag.Lookup (Unquote w) (strings.Trim tagValue BQ) "required" = Some v ->
  genStruct w file ptr name (fl1 ++ field :: fl2)%list (body, importPackages)
  = Ok (body', importPackages') ->
  exists before fi after,
    (exists imps, foldM (scanField w file) fl1 ([], importPackages)
                  = Ok (before, imps))
    /\ ConstValue fi = v
    /\ Name fi = declaredName field
    /\ Fprint_expr w (Field_Type field) = inl (Type_ fi)
    /\ (v <> "" ->
        body' = body ++ constructorText ptr name
                  (renderRange renderParam before
                   ++ renderRange renderParam after)
                  (renderRange renderInit before
                   ++ (indent 10 ++ Name fi ++ ": " ++ v ++ ",")
                   ++ renderRange renderInit after))
    /\ (v = "" ->
        body' = body ++ constructorText ptr name
                  (renderRange renderParam before
                   ++ (indent 9 ++ toLowerCamel (Name fi) ++ " "
                       ++ Type_ fi ++ ",")
                   ++ renderRange renderParam after)
                  (renderRange renderInit before
                   ++ (indent 10 ++ Name fi ++ ": "
                       ++ toLowerCamel (Name fi) ++ ",")
                   ++ renderRange renderInit after)).
Proof.
  intros Htag Hlook Hgen.
  apply genStruct_text in Hgen. destruct Hgen as (fis & Hscan & ->).
  apply foldM_app_Ok in Hscan.
  destruct Hscan as ([before imps1] & [fis2 imps2] & H1 & Hfield & H2).
  destruct (scanField_collects _ _ _ _ _ _ _ _ Htag Hlook Hfield)
    as (fi & Hfis2 & Hv & Hname & Hprint).
  simpl in Hfis2. subst fis2.
  apply scanFields_prefix in H2. destruct H2 as (after & ->).
  exists before, fi, after.
  split; [eauto|]. split; [exact Hv|]. split; [exact Hname|].
  split; [exact Hprint|].
  rewrite !renderRange_app. cbn [renderRange]. rewrite !append_nil_r.
  split; intros Hcase.
  - apply String.eqb_neq in Hcase.
    assert (Hp : renderParam fi = "")
      by (unfold renderParam; rewrite Hv, Hcase; reflexivity).
    assert (Hi : renderInit fi = indent 10 ++ Name fi ++ ": " ++ v ++ ",")
      by (unfold renderInit; rewrite Hv, Hcase; reflexivity).
    rewrite Hp, Hi, !append_assoc. reflexivity.
  - assert (Hp : renderParam fi
                 = indent 9 ++ toLowerCamel (Name fi) ++ " " ++ Type_ fi ++ ",")
      by (unfold renderParam; rewrite Hv, Hcase; reflexivity).
    assert (Hi : renderInit fi
                 = indent 10 ++ Name fi ++ ": " ++ toLowerCamel (Name fi) ++ ",")
      by (unfold renderInit; rewrite Hv, Hcase; reflexivity).
    rewrite Hp, Hi, !append_assoc. reflexivity.
Qed.

(** [B int] with the constant 7 between two parameters, and [Name string]
    with an empty value after [B]. *)
Lemma C3_required_value_witness :
  (exists before fi after,
      (exists imps, foldM (scanField (quietWorld []) noFile) [idField] ([], [])
                    = Ok (before, imps))
      /\ ConstValue fi = "7"
      /\ Name fi = "B"
      /\ Fprint_expr (quietWorld []) (Ident "int") = inl (Type_ fi)
      /\ ("7" <> "" ->
          valueConstructor "Foo"
            (indent 9 ++ "iD string," ++ indent 9 ++ "name string,")
            (indent 10 ++ "ID: iD," ++ indent 10 ++ "B: 7,"
             ++ indent 10 ++ "Name: name,")
          = "" ++ constructorText false "Foo"
                    (renderRange renderParam before
                     ++ renderRange renderParam after)
                    (renderRange renderInit before
                     ++ (indent 10 ++ Name fi ++ ": " ++ "7" ++ ",")
                     ++ renderRange renderInit after))
      /\ ("7" = "" ->
          valueConstructor "Foo"
            (indent 9 ++ "iD string," ++ indent 9 ++ "name string,")
            (indent 10 ++ "ID: iD," ++ indent 10 ++ "B: 7,"
             ++ indent 10 ++ "Name: name,")
          = "" ++ constructorText false "Foo"
                    (renderRange renderParam before
                     ++ (indent 9 ++ toLowerCamel (Name fi) ++ " "
                         ++ Type_ fi ++ ",")
                     ++ renderRange renderParam after)
                    (renderRange renderInit before
                     ++ (indent 10 ++ Name fi ++ ": "
                         ++ toLowerCamel (Name fi) ++ ",")
                     ++ renderRange renderInit after)))
  /\ (exists before fi after,
        (exists imps, foldM (scanField (quietWorld []) noFile) fieldsAB
                        ([], [])
                      = Ok (before, imps))
        /\ ConstValue fi = ""
        /\ Name fi = "Name"
        /\ Fprint_expr (quietWorld []) (Ident "string") = inl (Type_ fi)
        /\ ("" <> "" ->
            pointerConstructor "Foo" (indent 9 ++ "name string,")
              (indent 10 ++ "B: 7," ++ indent 10 ++ "Name: name,")
            = "" ++ constructorText true "Foo"
                      (renderRange renderParam before
                       ++ renderRange renderParam after)
                      (renderRange renderInit before
                       ++ (indent 10 ++ Name fi ++ ": " ++ "" ++ ",")
                       ++ renderRange renderInit after))
        /\ ("" = "" ->
            pointerConstructor "Foo" (indent 9 ++ "name string,")
              (indent 10 ++ "B: 7," ++ indent 10 ++ "Name: name,")
            = "" ++ constructorText true "Foo"
                      (renderRange renderParam before
                       ++ (indent 9 ++ toLowerCamel (Name fi) ++ " "
                           ++ Type_ fi ++ ",")
                       ++ renderRange renderParam after)
                      (renderRange renderInit before
                       ++ (indent 10 ++ Name fi ++ ": "
                           ++ toLowerCamel (Name fi) ++ ",")
                       ++ renderRange renderInit after))).
Proof.
  split.
  - apply (C3_required_value (quietWorld []) noFile false "Foo" [idField]
             (mkField ["B"] (Ident "int") (Some (requiredTag "7")))
             [nameField] "" [] (requiredTag "7") "7" _ []); reflexivity.
  - apply (C3_required_value (quietWorld []) noFile true "Foo" fieldsAB
             nameField [] "" [] (requiredTag "") "" _ []); reflexivity.
Defined.

(** ** The imports of a field, in the words of the specification *)

Lemma find_first {A : Type} (f : A -> bool) (l : list A) (a : A) :
  find f l = Some a ->
  exists pre post,
    l = (pre ++ a :: post)%list
    /\ f a = true
    /\ forall x, In x pre -> f x = false.
Proof.
  induction l as [|y l IH]; simpl; [discriminate|].
  destruct (f y) eqn:E.
  - intros [= ->]. exists [], l. split; [reflexivity|].
    split; [exact E|]. intros x [].
  - intros H. destruct (IH H) as (pre & post & -> & Ha & Hpre).
    exists (y :: pre), post. split; [reflexivity|]. split; [exact Ha|].
    intros x [<-|Hx]; auto.
Qed.

Lemma importMatches_false (imp : ImportSpec) (p : string) :
  importMatches imp p = false -> ~ matchesByAliasOrBase imp p.
Proof.
  intros H Hm. apply importMatches_spec in Hm. congruence.
Qed.

Lemma importOfToken_records (imports : list ImportSpec) (token : string) :
  TokenRecords imports token (importOfToken imports token).
Proof.
  unfold importOfToken, referencedPackage.
  destruct (strings.SplitN2 token dot) as [|p [|q [|r l]]] eqn:Esplit;
    try (apply recordsNoDot; unfold strings.SplitN2 in Esplit;
         destruct (strings.IndexByte token dot);
         [discriminate | reflexivity]).
  destruct (find (fun imp => importMatches imp p) imports) as [imp|] eqn:E.
  - destruct (find_first _ _ _ E) as (pre & post & Himports & Hm & Hpre).
    apply (recordsFirstMatch _ _ p q pre post imp); auto.
    + intros i Hi. apply importMatches_false. apply Hpre. exact Hi.
    + apply importMatches_spec. exact Hm.
  - apply (recordsNoMatch _ _ p q); [exact Esplit|].
    intros i Hi. apply importMatches_false.
    exact (find_none _ _ E i Hi).
Qed.

Lemma tokens_record (imports : list ImportSpec) (tokens : list string) :
  exists records,
    Forall2 (TokenRecords imports) tokens records
    /\ flat_map (importOfToken imports) tokens = List.concat records.
Proof.
  induction tokens as [|t tokens (records & Hall & Heq)].
  - exists []. split; [constructor | reflexivity].
  - exists (importOfToken imports t :: records). split.
    + constructor; [apply importOfToken_records | exact Hall].
    + simpl. rewrite Heq. reflexivity.
Qed.

(** C7.  Take a field with a [required] key whose type is printed as an
    ASCII text.  The field is collected with that text as it is, without an
    error whether or not its references are matched.  The text is cut into
    tokens at every character that is neither a letter nor a dot, and the
    imports recorded for the field are, token after token, what each token
    records: nothing for a token without a dot; for a token [p.rest], the
    first import of the file that answers to [p], by its alias or, without
    an alias, by the last element of its path; nothing when no import of
    the file answers to [p]. *)
Theorem C7_resolve_imports (w : World) (file : File) fieldInfos importPackages
  (field : Field) (tagValue v fieldTypeText fieldName : string) :
  Field_Tag field = Some tagValue ->
  StructTag.Lookup (Unquote w) (strings.Trim tagValue BQ) "required" = Some v ->
  Fprint_expr w (Field_Type field) = inl fieldTypeText ->
  isASCII fieldTypeText = true ->
  hd_error (Field_Names field) = Some fieldName
  \/ (Field_Names field = [] /\ Field_Type field = Ident fieldName) ->
  exists records,
    Forall2 (TokenRecords (File_Imports file))
      (strings.FieldsFunc fieldTypeText
         (fun c => negb (unicode.IsLetter c) && negb (Ascii.eqb c "."%char)))
      records
    /\ scanField w file (fieldInfos, importPackages) field
       = Ok ((fieldInfos ++ [ {| Type_ := fieldTypeText;
                                 Name := fieldName;
                                 ConstValue := v |} ])%list,
             (importPackages ++ List.concat records)%list).
Proof.
  intros Htag Hlook Hprint _ Hname.
  destruct (tokens_record (File_Imports file)
              (strings.FieldsFunc fieldTypeText isSeparator))
    as (records & Hall & Heq).
  exists records. split; [exact Hall|].
  unfold scanField. rewrite Htag, Hlook, Hprint.
  rewrite resolveImports_tokens, Heq.
  destruct Hname as [Hname|[Hnil Hident]].
  - destruct (Field_Names field) as [|n ns]; [discriminate|].
    injection Hname as ->. reflexivity.
  - rewrite Hnil, Hident. reflexivity.
Qed.

(** [Deadline map[string]*time.Time] in a file that imports [fmt], an
    aliased [url] and [time]: the tokens are [map], [string] and
    [time.Time], and the last one records the import of [time]. *)
Lemma C7_resolve_imports_witness :
  exists records,
    Forall2 (TokenRecords [importFmt; importURL; importTime])
      (strings.FieldsFunc "map[string]*time.Time"
         (fun c => negb (unicode.IsLetter c) && negb (Ascii.eqb c "."%char)))
      records
    /\ scanField (quietWorld [])
         (oneFile [importFmt; importURL; importTime] marker "Foo"
            (StructType [deadlineField]))
         ([], []) deadlineField
       = Ok (([] ++ [ {| Type_ := "map[string]*time.Time";
                         Name := "Deadline";
                         ConstValue := "" |} ])%list,
             ([] ++ List.concat records)%list).
Proof.
  exact (C7_resolve_imports (quietWorld [])
           (oneFile [importFmt; importURL; importTime] marker "Foo"
              (StructType [deadlineField]))
           [] [] deadlineField (requiredTag "") ""
           "map[string]*time.Time" "Deadline"
           eq_refl eq_refl eq_refl eq_refl (or_introl eq_refl)).
Defined.

(** A reference to a package that is not imported records nothing and is
    no error; a reference to [time] records the import of [time]. *)
Example unmatched_reference_is_no_error :
  scanField (quietWorld []) (oneFile [importFmt; importTime] marker "Foo"
                               (StructType [orphanField]))
    ([], []) orphanField
  = Ok ([ {| Type_ := "clock.Time"; Name := "When"; ConstValue := "" |} ], [])
  /\ scanField (quietWorld []) (oneFile [importFmt; importTime] marker "Foo"
                                  (StructType [createdField]))
       ([], []) createdField
     = Ok ([ {| Type_ := "time.Time"; Name := "Created"; ConstValue := "" |} ],
           [importTime]).
Proof. split; reflexivity. Qed.

(** ** Properties that hold on ASCII text *)

(** X3.  The constructor that is generated for a structure has one
    parameter (name in lower camel case, then type) for each collected
    field without a constant, in the order of the fields, and none for a
    field with a constant; every collected field has its initializer. *)
Theorem X3_parameters_are_the_fields_without_constant (w : World)
  (file : File) (ptr : bool) (name : string) (fields : list Field)
  (body : string) (importPackages : list ImportSpec) body' importPackages' :
  genStruct w file ptr name fields (body, importPackages)
  = Ok (body', importPackages') ->
  exists fieldInfos,
    foldM (scanField w file) fields ([], importPackages)
    = Ok (fieldInfos, importPackages')
    /\ body' = body ++ constructorText ptr name
                 (renderRange paramLine (filter isParameter fieldInfos))
                 (renderRange renderInit fieldInfos).
Proof.
  intros H. apply genStruct_text in H. destruct H as (fis & Hscan & ->).
  exists fis. split; [exact Hscan|]. do 2 f_equal.
  clear Hscan. induction fis as [|f l IH]; simpl.
  - reflexivity.
  - unfold renderParam at 1. fold (isParameter f).
    destruct (isParameter f); simpl.
    + fold (paramLine f). rewrite IH. reflexivity.
    + exact IH.
Qed.

Lemma X3_parameters_are_the_fields_without_constant_witness :
  exists fieldInfos,
    foldM (scanField (quietWorld []) noFile)
      [idField; mkField ["B"] (Ident "int") (Some (requiredTag "7")); nameField]
      ([], [])
    = Ok (fieldInfos, [])
    /\ valueConstructor "Foo"
         (indent 9 ++ "iD string," ++ indent 9 ++ "name string,")
         (indent 10 ++ "ID: iD," ++ indent 10 ++ "B: 7,"
          ++ indent 10 ++ "Name: name,")
       = "" ++ constructorText false "Foo"
                 (renderRange paramLine (filter isParameter fieldInfos))
                 (renderRange renderInit fieldInfos).
Proof.
  apply (X3_parameters_are_the_fields_without_constant (quietWorld []) noFile
           false "Foo"
           [idField; mkField ["B"] (Ident "int") (Some (requiredTag "7"));
            nameField] "" []).
  reflexivity.
Defined.

(** X5.  On an ASCII name [toLowerCamel] changes at most the first byte:
    the length and everything after the first byte are kept, and applying
    it twice is the same as applying it once. *)
Theorem X5_toLowerCamel_first_byte_only (s : string) :
  isASCII s = true ->
  String.length (toLowerCamel s) = String.length s
  /\ drop 1 (toLowerCamel s) = drop 1 s
  /\ isASCII (toLowerCamel s) = true
  /\ toLowerCamel (toLowerCamel s) = toLowerCamel s.
Proof.
  intros Hs. destruct s as [|c r].
  - repeat split; reflexivity.
  - rewrite !toLowerCamel_String, unicode_ToLower_idempotent.
    repeat split; try reflexivity.
    simpl in Hs |- *. apply andb_true_iff in Hs. destruct Hs as [Hc Hr].
    rewrite Hr, andb_true_r.
    unfold unicode.ToLower. destruct (unicode.IsUpper c) eqn:E; [|exact Hc].
    unfold unicode.IsUpper, unicode.inRange in E.
    apply andb_true_iff in E. destruct E as [_ E]. apply Nat.leb_le in E.
    rewrite nat_ascii_embedding by lia. apply Nat.ltb_lt. lia.
Qed.

Lemma X5_toLowerCamel_first_byte_only_witness :
  String.length (toLowerCamel "HTTPClient") = String.length "HTTPClient"
  /\ drop 1 (toLowerCamel "HTTPClient") = drop 1 "HTTPClient"
  /\ isASCII (toLowerCamel "HTTPClient") = true
  /\ toLowerCamel (toLowerCamel "HTTPClient") = toLowerCamel "HTTPClient".
Proof.
  apply (X5_toLowerCamel_first_byte_only "HTTPClient"). reflexivity.
Defined.

(** X6.  On ASCII names, two field names that differ only in the case of
    their first letter get the same parameter name, and a name that does
    not begin with an upper-case letter is its own parameter name. *)
Theorem X6_toLowerCamel_collisions (c : ascii) (r : string) :
  isASCII (String c r) = true ->
  toLowerCamel (String c r) = toLowerCamel (String (unicode.ToLower c) r)
  /\ (unicode.IsUpper c = false -> toLowerCamel (String c r) = String c r).
Proof.
  intros _. rewrite !toLowerCamel_String, unicode_ToLower_idempotent.
  split; [reflexivity|]. intros H. unfold unicode.ToLower. rewrite H.
  reflexivity.
Qed.

Lemma X6_toLowerCamel_collisions_witness :
  toLowerCamel "Name" = toLowerCamel "name"
  /\ (unicode.IsUpper "n"%char = false -> toLowerCamel "name" = "name").
Proof.
  destruct (X6_toLowerCamel_collisions "N"%char "ame" eq_refl) as [H _].
  destruct (X6_toLowerCamel_collisions "n"%char "ame" eq_refl) as [_ H'].
  split; [exact H | exact H'].
Defined.

(** X18.  When the types of the fields are printed as ASCII text, the
    imports recorded for a structure are, field after field in the order
    of the collected fields, the imports that the type text of each field
    refers to; nothing is merged, so two fields of the same qualified type
    record its import twice. *)
Theorem X18_imports_follow_the_fields (w : World) (file : File)
  (fields : list Field) fieldInfos0 importPackages fieldInfos importPackages' :
  (forall field txt,
      In field fields -> Fprint_expr w (Field_Type field) = inl txt ->
      isASCII txt = true) ->
  foldM (scanField w file) fields (fieldInfos0, importPackages)
  = Ok (fieldInfos, importPackages') ->
  exists new,
    fieldInfos = (fieldInfos0 ++ new)%list
    /\ importPackages'
       = (importPackages ++ flat_map (importsOfField file) new)%list.
Proof.
  intros _. revert fieldInfos0 importPackages;
    induction fields as [|field fields IH]; intros fis imps; cbn [foldM].
  - intros [= <- <-]. exists []. simpl. rewrite !app_nil_r.
    split; reflexivity.
  - destruct (scanField w file (fis, imps) field) as [[fis1 imps1]|e|p] eqn:E;
      cbn [bind]; try discriminate.
    intros H. apply IH in H. apply scanField_new in E.
    destruct E as (n1 & -> & ->). destruct H as (n2 & -> & ->).
    exists (n1 ++ n2)%list. rewrite flat_map_app, <- !app_assoc.
    split; reflexivity.
Qed.

Lemma X18_imports_follow_the_fields_witness :
  exists new,
    [ {| Type_ := "time.Time"; Name := "Created"; ConstValue := "" |};
      {| Type_ := "time.Time"; Name := "Updated"; ConstValue := "" |} ]
    = ([] ++ new)%list
    /\ [importTime; importTime]
       = ([] ++ flat_map
                  (importsOfField
                     (oneFile [importFmt; importTime] marker "Foo"
                        (StructType [createdField; updatedField])))
                  new)%list.
Proof.
  apply (X18_imports_follow_the_fields (quietWorld [])
           (oneFile [importFmt; importTime] marker "Foo"
              (StructType [createdField; updatedField]))
           [createdField; updatedField] [] []).
  - intros field txt [<-|[<-|[]]] [= <-]; reflexivity.
  - reflexivity.
Defined.

(** A no-break space before [-p] on the marker line separates words as a
    space does. *)
Example pointer_option_after_no_break_space :
  scanDoc [ {| Text := "//genconstructor" ++ NBSP ++ "-p" |} ] = (true, true)
  /\ strings.Fields ("//genconstructor" ++ NBSP ++ "-p")
     = ["//genconstructor"; "-p"]
  /\ strings.TrimSpace ("//genconstructor -p " ++ NBSP) = "//genconstructor -p".
Proof. repeat split; reflexivity. Qed.

(** Imports with the same path stay in the order in which they were
    recorded. *)
Example sortImports_keeps_equal_paths_in_order :
  sortImports [ mkImportSpec (Some "b") (DQ ++ "time" ++ DQ);
                importFmt;
                mkImportSpec (Some "a") (DQ ++ "time" ++ DQ) ]
  = [ importFmt;
      mkImportSpec (Some "b") (DQ ++ "time" ++ DQ);
      mkImportSpec (Some "a") (DQ ++ "time" ++ DQ) ].
Proof. reflexivity. Qed.
